(** * hub-robot-http-utils: the HTTP server engine

    A shallow embedding of [HttpServer] (http_server.cpp / http_server.h):
    the connection pool driven by [tick], the per-connection pipeline
    [handleConnection] (bounded read, request construction, CORS preflight,
    middlewares, two-tier routing, response composition) and the route
    matcher [matchPattern].

    Conventions.
    - An Arduino [String] is a [string]; raw receive-buffer bytes are
      [list ascii] (an [ascii] is exactly one 8-bit byte).
    - [std::map<String, _>] is a [gmap string _].
    - [size_t], [u32_t] and [unsigned long] are 32 bits wide on the ESP32
      target; they are integers in [Z] with the wrap-around written out.
    - Handlers, middlewares and hooks are functions; because the source passes
      [HttpRequest &] and [HubHttpResponse &], a callee returns the objects it
      may have mutated.
    - Calls into user code are recorded in a ghost [trace] so that "this
      handler was (not) invoked" can be stated.
    - Diagnostic printing through the logger is not modelled. *)

From Stdlib Require Import ZArith Lia Ascii String List Bool.
From stdpp Require Import base option list gmap strings.

Local Open Scope Z_scope.

(** ** Machine integers *)

Definition SIZE_MODULUS : Z := 2 ^ 32.

(** Conversion of an [int] (or of an arithmetic result) to [size_t]. *)
Definition to_size_t (z : Z) : Z := z mod SIZE_MODULUS.

Definition size_add (a b : Z) : Z := to_size_t (a + b).
Definition size_sub (a b : Z) : Z := to_size_t (a - b).

(** ** Arduino [String] operations used by the server *)

Definition NUL : ascii := Ascii.zero.
Definition SLASH : ascii := "/"%char.
Definition COLON : ascii := ":"%char.
Definition QUESTION : ascii := "?"%char.

Definition zlength (s : string) : Z := Z.of_nat (String.length s).

(** [s.endsWith(String(c))] for a one-character suffix. *)
Fixpoint endsWith (c : ascii) (s : string) : bool :=
  match s with
  | EmptyString => false
  | String a EmptyString => bool_decide (a = c)
  | String _ s' => endsWith c s'
  end.

(** [s.startsWith(String(c))] for a one-character prefix. *)
Definition startsWith (c : ascii) (s : string) : bool :=
  match s with
  | EmptyString => false
  | String a _ => bool_decide (a = c)
  end.

(** [s.remove(s.length() - 1)]: drops the last character. *)
Fixpoint remove_last (s : string) : string :=
  match s with
  | EmptyString => EmptyString
  | String _ EmptyString => EmptyString
  | String a s' => String a (remove_last s')
  end.

(** [s.substring(1)]. *)
Definition substring1 (s : string) : string :=
  match s with
  | EmptyString => EmptyString
  | String _ s' => s'
  end.

Definition lower_char (c : ascii) : ascii :=
  let n := nat_of_ascii c in
  if ((65 <=? n) && (n <=? 90))%nat then ascii_of_nat (n + 32) else c.

(** [s.toLowerCase()]. *)
Fixpoint toLowerCase (s : string) : string :=
  match s with
  | EmptyString => EmptyString
  | String a s' => String (lower_char a) (toLowerCase s')
  end.

(** [a.equalsIgnoreCase(b)]: same length and equal after [tolower] of every
    character. *)
Fixpoint equalsIgnoreCase (a b : string) : bool :=
  match a, b with
  | EmptyString, EmptyString => true
  | String x a', String y b' =>
      bool_decide (lower_char x = lower_char y) && equalsIgnoreCase a' b'
  | _, _ => false
  end.

(** The C-string constructor of [String] applied to [std::string::c_str]:
    the characters up to the first NUL. *)
Fixpoint upto_nul (s : string) : string :=
  match s with
  | EmptyString => EmptyString
  | String a s' => if bool_decide (a = NUL) then EmptyString else String a (upto_nul s')
  end.

Definition is_space (c : ascii) : bool :=
  let n := nat_of_ascii c in
  bool_decide (n = 32%nat) || ((9 <=? n) && (n <=? 13))%nat.

Definition digit_of (c : ascii) : option Z :=
  let n := nat_of_ascii c in
  if ((48 <=? n) && (n <=? 57))%nat then Some (Z.of_nat n - 48) else None.

Fixpoint atol_digits (acc : Z) (s : string) : Z :=
  match s with
  | EmptyString => acc
  | String a s' =>
      match digit_of a with
      | Some d => atol_digits (10 * acc + d) s'
      | None => acc
      end
  end.

Fixpoint skip_spaces (s : string) : string :=
  match s with
  | String a s' => if is_space a then skip_spaces s' else s
  | EmptyString => EmptyString
  end.

(** [s.toInt()], that is [atol]: leading white space, an optional sign, then
    the longest run of decimal digits; 0 when there is none. *)
Definition toInt (s : string) : Z :=
  match skip_spaces s with
  | String "-" s' => - atol_digits 0 s'
  | String "+" s' => atol_digits 0 s'
  | s' => atol_digits 0 s'
  end.

(** ** Path handling *)

(** [if (p.length() > 1 && p.endsWith("/")) p.remove(p.length() - 1)]. *)
Definition strip_trailing_slash (p : string) : string :=
  if (1 <? zlength p) && endsWith SLASH p then remove_last p else p.

Definition push_segment (seg : string) : list string :=
  match seg with
  | EmptyString => []
  | _ => [seg]
  end.

(** The splitting loop shared by [HttpServer::on] and [matchPattern]:
<<
    while (start < tmp.length()) {
        int idx = tmp.indexOf('/', start);
        if (idx == -1) idx = tmp.length();
        String seg = tmp.substring(start, idx);
        if (seg.length() > 0) segments.push_back(seg);
        start = idx + 1;
    }
>>
    [cur] is the segment being collected since the last '/'. *)
Fixpoint split_from (cur : string) (s : string) : list string :=
  match s with
  | EmptyString => push_segment cur
  | String a s' =>
      if bool_decide (a = SLASH)
      then push_segment cur ++ split_from EmptyString s'
      else split_from (cur +:+ String a EmptyString) s'
  end.

Definition split_segments (p : string) : list string := split_from EmptyString p.

(** ** Requests and responses *)

Record HttpRequest := mkRequest {
  req_method : string;
  req_path : string;
  req_body : string;
  req_headers : gmap string string;
  req_query : gmap string string;
  req_params : gmap string string;
  req_headersLower : gmap string string
}.

(** [HttpRequest::HttpRequest()]. *)
Definition HttpRequest_new : HttpRequest :=
  mkRequest "GET" "/" "" ∅ ∅ ∅ ∅.

Definition set_param (k v : string) (r : HttpRequest) : HttpRequest :=
  mkRequest (req_method r) (req_path r) (req_body r) (req_headers r)
            (req_query r) (<[k := v]> (req_params r)) (req_headersLower r).

Definition add_header (k v : string) (r : HttpRequest) : HttpRequest :=
  mkRequest (req_method r) (req_path r) (req_body r) (<[k := v]> (req_headers r))
            (req_query r) (req_params r) (<[toLowerCase k := v]> (req_headersLower r)).

Definition hasQueryParam (r : HttpRequest) (name : string) : bool :=
  bool_decide (is_Some (req_query r !! name)).

Definition getQueryParam (r : HttpRequest) (name : string) (dflt : string) : string :=
  default dflt (req_query r !! name).

Definition getHeader (r : HttpRequest) (name : string) (dflt : string) : string :=
  default dflt (req_headersLower r !! toLowerCase name).

Record HubHttpResponse := mkResponse {
  status : Z;
  body : string;
  headers : gmap string string
}.

(** [HubHttpResponse::HubHttpResponse()] and [HubHttpResponse(int)]. *)
Definition HubHttpResponse_new : HubHttpResponse := mkResponse 200 "" ∅.
Definition HubHttpResponse_status (code : Z) : HubHttpResponse := mkResponse code "" ∅.

Definition setStatus (code : Z) (r : HubHttpResponse) : HubHttpResponse :=
  mkResponse code (body r) (headers r).
Definition setBody (content : string) (r : HubHttpResponse) : HubHttpResponse :=
  mkResponse (status r) content (headers r).
Definition setHeader (name value : string) (r : HubHttpResponse) : HubHttpResponse :=
  mkResponse (status r) (body r) (<[name := value]> (headers r)).
Definition html (b : string) (r : HubHttpResponse) : HubHttpResponse :=
  mkResponse (status r) b (<["Content-Type" := "text/html; charset=utf-8"]> (headers r)).
Definition text (b : string) (r : HubHttpResponse) : HubHttpResponse :=
  mkResponse (status r) b (<["Content-Type" := "text/plain; charset=utf-8"]> (headers r)).

(** ** Handlers *)

(** A route handler receives [HttpRequest &]; [None] stands for a thrown
    exception, which [handleConnection] catches. *)
Definition RouteHandler : Type := HttpRequest → HttpRequest * option HubHttpResponse.

(** [MiddlewareHandlerBool]: returns [false] to short-circuit. *)
Definition MiddlewareHandlerBool : Type :=
  HttpRequest → HubHttpResponse → bool * HttpRequest * HubHttpResponse.

(** [MiddlewareHandler]: the legacy form without a result. *)
Definition MiddlewareHandler : Type :=
  HttpRequest → HubHttpResponse → HttpRequest * HubHttpResponse.

Definition ErrorHandler : Type := Z → string → HubHttpResponse.

Definition BeforeSendHook : Type :=
  HttpRequest → HubHttpResponse → HttpRequest * HubHttpResponse.

Record RoutePattern := mkPattern {
  rp_method : string;
  rp_pattern : string;
  rp_segments : list string;
  rp_handler : RouteHandler;
  rp_hasParams : bool
}.

(** ** [HttpServer::matchPattern] *)

(** The loop over [rp.segments]; both vectors have the same size when it is
    entered. A [:name] segment writes [req.params] at once, before the later
    segments are compared. *)
Fixpoint match_segments (pat act : list string) (req : HttpRequest)
  : bool * HttpRequest :=
  match pat, act with
  | patSeg :: pat', actSeg :: act' =>
      if startsWith COLON patSeg
      then match_segments pat' act' (set_param (substring1 patSeg) actSeg req)
      else if bool_decide (patSeg ≠ actSeg) then (false, req)
      else match_segments pat' act' req
  | _, _ => (true, req)
  end.

Definition matchPattern (rp : RoutePattern) (method path : string) (req : HttpRequest)
  : bool * HttpRequest :=
  if negb (equalsIgnoreCase (rp_method rp) method) then (false, req)
  else
    let normPath := strip_trailing_slash path in
    let pathSegs := split_segments normPath in
    if bool_decide (length pathSegs ≠ length (rp_segments rp)) then (false, req)
    else match_segments (rp_segments rp) pathSegs req.

(** [HttpServer::on(method, path, handler)] builds the pattern that is
    appended to [patternHandlers]. *)
Definition make_pattern (method path : string) (h : RouteHandler) : RoutePattern :=
  let segs := split_segments (strip_trailing_slash path) in
  mkPattern method path segs h (existsb (startsWith COLON) segs).

(** ** Collaborators outside http_server.cpp *)

(** What [phr_parse_request] hands back: its [int] result and the output
    arguments ([method]/[method_len], [path]/[path_len], and the first
    [num_headers] entries of [headers]) as slices of the buffer. *)
Record phr_result := mkPhr {
  phr_ret : Z;
  phr_method : list ascii;
  phr_path : list ascii;
  phr_headers : list (list ascii * list ascii)
}.

(** The request parser (picohttpparser) and [split] (string_utils.hpp) are
    called by [handleConnection] but defined elsewhere; the server is
    verified against any implementation of them.
    [phr_parse_request bytes last_len] receives the [buflen] valid bytes. *)
Class Collaborators := {
  phr_parse_request : list ascii → Z → phr_result;
  split : string → ascii → list string
}.

(** ** The socket *)

(** [cl_inbox] lists the byte segments in the order in which successive
    [read] calls find them available; [cl_outbox] lists the responses handed
    to [respondToClient], oldest first. *)
Record WiFiClient := mkClient {
  cl_connected : bool;
  cl_inbox : list (list ascii);
  cl_outbox : list HubHttpResponse
}.

Definition available (c : WiFiClient) : Z :=
  match cl_inbox c with
  | [] => 0
  | seg :: _ => Z.of_nat (length seg)
  end.

(** [client.read(tmpBuf, size)]: at most [size] bytes of what is available;
    -1 when nothing is. Returns the result, the bytes stored in [tmpBuf] and
    the socket afterwards. *)
Definition client_read (c : WiFiClient) (size : Z) : Z * list ascii * WiFiClient :=
  match cl_inbox c with
  | [] => (-1, [], c)
  | seg :: rest =>
      let got := take (Z.to_nat size) seg in
      let left := drop (Z.to_nat size) seg in
      (Z.of_nat (length got), got,
       mkClient (cl_connected c)
                (match left with [] => rest | _ => left :: rest end)
                (cl_outbox c))
  end.

(** [respondToClient]: the status line, the headers, a [Content-Length] of the
    body's byte length and the body are written to the socket. The result of
    [respondToClient] is ignored by every caller, so only the response that
    was put on the wire is kept. *)
Definition respondToClient (c : WiFiClient) (response : HubHttpResponse) : WiFiClient :=
  mkClient (cl_connected c) (cl_inbox c) (cl_outbox c ++ [response]).

(** ** Connections *)

Definition CLIENT_INACTIVITY_TIMEOUT_MS : Z := 300000.

Record HttpClientConnection := mkConnection {
  client : WiFiClient;
  lastActivityMillis : Z
}.

(** [millis()] is an [unsigned long] reading of the clock. *)
Definition millis (clock : Z) : Z := clock mod SIZE_MODULUS.

Definition HttpClientConnection_new (clock : Z) (c : WiFiClient) : HttpClientConnection :=
  mkConnection c (millis clock).

Definition updateActivity (clock : Z) (conn : HttpClientConnection) : HttpClientConnection :=
  mkConnection (client conn) (millis clock).

(** [HttpClientConnection::isActive]. *)
Definition isActive (clock : Z) (conn : HttpClientConnection) : bool :=
  size_sub (millis clock) (lastActivityMillis conn) <? CLIENT_INACTIVITY_TIMEOUT_MS.

Definition connected (conn : HttpClientConnection) : bool := cl_connected (client conn).

(** ** The server object *)

Definition DEFAULT_BUFFER_SIZE : Z := 2048.
Definition MAX_BUFFER_SIZE : Z := 8192.
Definition MIN_FREE_RAM : Z := 4096.
Definition MAX_HEADERS : Z := 16.

Record HttpServer := mkServer {
  running : bool;
  corsEnabled : bool;
  logger : option (Z → string);       (* the logger's [tail], when one is set *)
  maxRequestSize : Z;
  connectionInactivityTimeout : Z;
  keepAlive : bool;
  serverName : string;
  serverVersion : string;
  corsOrigin : string;
  corsMethods : string;
  corsHeaders : string;
  httpHandlers : gmap string RouteHandler;
  patternHandlers : list RoutePattern;
  middlewares : list MiddlewareHandlerBool;
  notFoundHandler : option RouteHandler;
  errorHandler : option ErrorHandler;
  connections : list HttpClientConnection;
  defaultHeaders : gmap string string;
  beforeSendHook : option BeforeSendHook
}.

(** The member initialisers of the class and [HttpServer::HttpServer()],
    followed by [begin()]. *)
Definition HttpServer_new : HttpServer :=
  mkServer true false None MAX_BUFFER_SIZE 300000 false "Hub-Server" "1.0"
           "*" "GET, POST, PUT, DELETE, OPTIONS" "Content-Type, Authorization"
           ∅ [] [] None None [] ∅ None.

Definition set_connections (cs : list HttpClientConnection) (s : HttpServer) : HttpServer :=
  mkServer (running s) (corsEnabled s) (logger s) (maxRequestSize s)
           (connectionInactivityTimeout s) (keepAlive s) (serverName s) (serverVersion s)
           (corsOrigin s) (corsMethods s) (corsHeaders s) (httpHandlers s)
           (patternHandlers s) (middlewares s) (notFoundHandler s) (errorHandler s)
           cs (defaultHeaders s) (beforeSendHook s).

(** [on(path, handler)]. *)
Definition on (path : string) (h : RouteHandler) (s : HttpServer) : HttpServer :=
  mkServer (running s) (corsEnabled s) (logger s) (maxRequestSize s)
           (connectionInactivityTimeout s) (keepAlive s) (serverName s) (serverVersion s)
           (corsOrigin s) (corsMethods s) (corsHeaders s) (<[path := h]> (httpHandlers s))
           (patternHandlers s) (middlewares s) (notFoundHandler s) (errorHandler s)
           (connections s) (defaultHeaders s) (beforeSendHook s).

(** [on(method, path, handler)]. *)
Definition on_method (method path : string) (h : RouteHandler) (s : HttpServer) : HttpServer :=
  mkServer (running s) (corsEnabled s) (logger s) (maxRequestSize s)
           (connectionInactivityTimeout s) (keepAlive s) (serverName s) (serverVersion s)
           (corsOrigin s) (corsMethods s) (corsHeaders s) (httpHandlers s)
           (patternHandlers s ++ [make_pattern method path h]) (middlewares s)
           (notFoundHandler s) (errorHandler s)
           (connections s) (defaultHeaders s) (beforeSendHook s).

(** [use(MiddlewareHandlerBool)]. *)
Definition use (mw : MiddlewareHandlerBool) (s : HttpServer) : HttpServer :=
  mkServer (running s) (corsEnabled s) (logger s) (maxRequestSize s)
           (connectionInactivityTimeout s) (keepAlive s) (serverName s) (serverVersion s)
           (corsOrigin s) (corsMethods s) (corsHeaders s) (httpHandlers s)
           (patternHandlers s) (middlewares s ++ [mw]) (notFoundHandler s) (errorHandler s)
           (connections s) (defaultHeaders s) (beforeSendHook s).

(** [use(MiddlewareHandler)]: the legacy middleware is wrapped so that it
    always continues. *)
Definition use_legacy (mw : MiddlewareHandler) (s : HttpServer) : HttpServer :=
  use (λ req res, let '(req', res') := mw req res in (true, req', res')) s.

Definition enableCORS (origin methods hdrs : string) (s : HttpServer) : HttpServer :=
  mkServer (running s) true (logger s) (maxRequestSize s)
           (connectionInactivityTimeout s) (keepAlive s) (serverName s) (serverVersion s)
           origin methods hdrs (httpHandlers s)
           (patternHandlers s) (middlewares s) (notFoundHandler s) (errorHandler s)
           (connections s) (defaultHeaders s) (beforeSendHook s).

Definition setMaxRequestSize (maxSize : Z) (s : HttpServer) : HttpServer :=
  mkServer (running s) (corsEnabled s) (logger s)
           (if MAX_BUFFER_SIZE <? maxSize then MAX_BUFFER_SIZE
            else if maxSize <? DEFAULT_BUFFER_SIZE then DEFAULT_BUFFER_SIZE
            else maxSize)
           (connectionInactivityTimeout s) (keepAlive s) (serverName s) (serverVersion s)
           (corsOrigin s) (corsMethods s) (corsHeaders s) (httpHandlers s)
           (patternHandlers s) (middlewares s) (notFoundHandler s) (errorHandler s)
           (connections s) (defaultHeaders s) (beforeSendHook s).

Definition setConnectionInactivityTimeout (timeoutMs : Z) (s : HttpServer) : HttpServer :=
  mkServer (running s) (corsEnabled s) (logger s) (maxRequestSize s)
           timeoutMs (keepAlive s) (serverName s) (serverVersion s)
           (corsOrigin s) (corsMethods s) (corsHeaders s) (httpHandlers s)
           (patternHandlers s) (middlewares s) (notFoundHandler s) (errorHandler s)
           (connections s) (defaultHeaders s) (beforeSendHook s).

Definition setKeepAlive (enabled : bool) (s : HttpServer) : HttpServer :=
  mkServer (running s) (corsEnabled s) (logger s) (maxRequestSize s)
           (connectionInactivityTimeout s) enabled (serverName s) (serverVersion s)
           (corsOrigin s) (corsMethods s) (corsHeaders s) (httpHandlers s)
           (patternHandlers s) (middlewares s) (notFoundHandler s) (errorHandler s)
           (connections s) (defaultHeaders s) (beforeSendHook s).

(** [HttpServerConfig] and [begin(config)]: the fields that the serving
    path reads. *)
Record HttpServerConfig := mkConfig {
  cfg_maxRequestSize : Z;
  cfg_connectionInactivityTimeout : Z;
  cfg_keepAlive : bool
}.

Definition begin_config (config : HttpServerConfig) (s : HttpServer) : HttpServer :=
  mkServer true (corsEnabled s) (logger s) (cfg_maxRequestSize config)
           (cfg_connectionInactivityTimeout config) (cfg_keepAlive config)
           (serverName s) (serverVersion s)
           (corsOrigin s) (corsMethods s) (corsHeaders s) (httpHandlers s)
           (patternHandlers s) (middlewares s) (notFoundHandler s) (errorHandler s)
           (connections s) (defaultHeaders s) (beforeSendHook s).

Definition hasEnoughMemory (freeRam : Z) : bool := MIN_FREE_RAM <=? freeRam.

Definition generateErrorResponse (s : HttpServer) (statusCode : Z) (message : string)
  : HubHttpResponse :=
  match errorHandler s with
  | Some h => h statusCode message
  | None => setBody message (setHeader "Content-Type" "text/plain" (HubHttpResponse_status statusCode))
  end.

Definition applyCORS (s : HttpServer) (response : HubHttpResponse) : HubHttpResponse :=
  if negb (corsEnabled s) then response
  else
    setHeader "Access-Control-Max-Age" "86400"
      (setHeader "Access-Control-Allow-Headers" (corsHeaders s)
        (setHeader "Access-Control-Allow-Methods" (corsMethods s)
          (setHeader "Access-Control-Allow-Origin" (corsOrigin s) response))).

(** [applyDefaultHeaders] sets every default header whose name the response
    does not have yet: the response's own headers win. *)
Definition applyDefaultHeaders (s : HttpServer) (response : HubHttpResponse) : HubHttpResponse :=
  mkResponse (status response) (body response) (headers response ∪ defaultHeaders s).

(** ** Calls into user code *)

Inductive event :=
| EvMiddleware (i : nat)          (* middlewares[i] was called *)
| EvMatchPattern (r : nat)        (* matchPattern was run on patternHandlers[r] *)
| EvPatternHandler (r : nat)      (* patternHandlers[r].handler was called *)
| EvExactLookup (path : string)   (* httpHandlers.find(path) *)
| EvExactHandler (path : string)  (* httpHandlers[path] was called *)
| EvNotFoundHandler               (* notFoundHandler was called *)
| EvBeforeSend.                   (* beforeSendHook was called *)

Definition is_middleware_event (e : event) : bool :=
  match e with EvMiddleware _ => true | _ => false end.

Definition is_router_event (e : event) : bool :=
  match e with EvMatchPattern _ | EvExactLookup _ => true | _ => false end.

Definition is_handler_event (e : event) : bool :=
  match e with
  | EvPatternHandler _ | EvExactHandler _ | EvNotFoundHandler => true
  | _ => false
  end.

(** ** [HttpServer::applyMiddlewares] *)

(** The loop from index [i] on; [mws] are [middlewares[i..]]. *)
Fixpoint applyMiddlewares_from (i : nat) (mws : list MiddlewareHandlerBool)
    (req : HttpRequest) (response : HubHttpResponse)
  : HttpRequest * HubHttpResponse * list event :=
  match mws with
  | [] => (req, response, [])
  | mw :: rest =>
      let '(continue, req', response') := mw req response in
      if negb continue then (req', response', [EvMiddleware i])   (* break *)
      else
        let '(req'', response'', t) := applyMiddlewares_from (S i) rest req' response' in
        (req'', response'', EvMiddleware i :: t)
  end.

Definition applyMiddlewares (s : HttpServer) (req : HttpRequest) (response : HubHttpResponse)
  : HttpRequest * HubHttpResponse * list event :=
  applyMiddlewares_from 0 (middlewares s) req response.

(** ** Routing inside [handleConnection] *)

(** The scan [for (r = 0; r < patternHandlers.size(); r++)] from index [r]
    on. It stops at the first pattern that [matchPattern] accepts. *)
Fixpoint scan_patterns (r : nat) (pats : list RoutePattern) (req : HttpRequest)
  : option (nat * RoutePattern) * HttpRequest * list event :=
  match pats with
  | [] => (None, req, [])
  | rp :: rest =>
      let '(ok, req') := matchPattern rp (req_method req) (req_path req) req in
      if ok then (Some (r, rp), req', [EvMatchPattern r])
      else
        let '(hit, req'', t) := scan_patterns (S r) rest req' in
        (hit, req'', EvMatchPattern r :: t)
  end.

(** [try { response = handler(req); } catch (...) { response = 500 }]. *)
Definition invoke_guarded (s : HttpServer) (h : RouteHandler) (req : HttpRequest)
  : HttpRequest * HubHttpResponse :=
  match h req with
  | (req', Some response) => (req', response)
  | (req', None) => (req', generateErrorResponse s 500 "Internal Server Error")
  end.

Definition welcome_page (s : HttpServer) : string :=
  ("<html><head><title>" +:+ serverName s +:+ "</title></head>")
  +:+ ("<body><h1>Hello!</h1><h3>You're connected to " +:+ serverName s +:+ "!</h3>")
  +:+ ("<p>Version: " +:+ serverVersion s +:+ "</p></body></html>").

Definition log_endpoint (s : HttpServer) (req : HttpRequest) (response : HubHttpResponse)
  : HubHttpResponse :=
  match logger s with
  | None => generateErrorResponse s 404 "Logging not enabled"
  | Some tail =>
      let num_lines :=
        if hasQueryParam req "lines" then
          let n := to_size_t (toInt (getQueryParam req "lines" "")) in
          if n =? 0 then 20 else n
        else 20 in
      text (upto_nul (tail num_lines)) response
  end.

(** Who produced the response. *)
Inductive route_choice :=
| ByPattern (r : nat)
| ByExactPath (path : string)
| BuiltinRoot
| BuiltinLog
| NotFound.

(** The routing part of [handleConnection], from "Attempt param/method route
    matching first" to the not-found fallback. The response is [None] when
    the not-found handler throws: that call is not inside a [try]. *)
Definition dispatch (s : HttpServer) (req : HttpRequest) (response : HubHttpResponse)
  : route_choice * HttpRequest * option HubHttpResponse * list event :=
  let '(hit, req1, t1) := scan_patterns 0 (patternHandlers s) req in
  match hit with
  | Some (r, rp) =>
      let '(req2, response2) := invoke_guarded s (rp_handler rp) req1 in
      (ByPattern r, req2, Some response2, t1 ++ [EvPatternHandler r])
  | None =>
      let t2 := t1 ++ [EvExactLookup (req_path req1)] in
      match httpHandlers s !! req_path req1 with
      | Some h =>
          let '(req2, response2) := invoke_guarded s h req1 in
          (ByExactPath (req_path req1), req2, Some response2,
           t2 ++ [EvExactHandler (req_path req1)])
      | None =>
          if bool_decide (req_path req1 = "/") then
            (BuiltinRoot, req1, Some (html (welcome_page s) response), t2)
          else if bool_decide (req_path req1 = "/log") then
            (BuiltinLog, req1, Some (log_endpoint s req1 response), t2)
          else
            match notFoundHandler s with
            | Some h =>
                let '(req2, thrown_or_response) := h req1 in
                (NotFound, req2, thrown_or_response, t2 ++ [EvNotFoundHandler])
            | None =>
                (NotFound, req1, Some (generateErrorResponse s 404 "Not Found"), t2)
            end
      end
  end.

(** ** Response composition: the steps between routing and sending *)

Definition compose (s : HttpServer) (req : HttpRequest) (response : HubHttpResponse)
  : HttpRequest * HubHttpResponse * list event :=
  let r1 := if corsEnabled s then applyCORS s response else response in
  let r2 := if bool_decide (is_Some (headers r1 !! "Server")) then r1
            else setHeader "Server" (serverName s +:+ "/" +:+ serverVersion s) r1 in
  let r3 := applyDefaultHeaders s r2 in
  let r4 := setHeader "Connection" (if keepAlive s then "keep-alive" else "close") r3 in
  match beforeSendHook s with
  | Some hook => let '(req', r5) := hook req r4 in (req', r5, [EvBeforeSend])
  | None => (req, r4, [])
  end.

(** ** What one call of [handleConnection] can end in *)

Inductive fault :=
| BufferOverread        (* the C-string scan for the body left the buffer *)
| UncaughtException.    (* the not-found handler threw *)

Record hc_result := mkResult {
  hc_keep : bool;               (* the value returned to [tick] *)
  hc_conn : HttpClientConnection;
  hc_clock : Z;
  hc_trace : list event
}.

Inductive hc_outcome :=
| Returned (r : hc_result)
| Faulted (f : fault).

(** The part of [handleConnection] that follows [logRequest(req)]. *)
Definition serve (s : HttpServer) (clock : Z) (conn : HttpClientConnection)
    (cl : WiFiClient) (req : HttpRequest) : hc_outcome :=
  let response := HubHttpResponse_new in
  if corsEnabled s && bool_decide (req_method req = "OPTIONS") then
    let response := applyCORS s (setStatus 204 response) in
    Returned (mkResult true (mkConnection (respondToClient cl response) (lastActivityMillis conn))
                       clock [])
  else
    let '(req1, response1, t1) := applyMiddlewares s req response in
    let '(_, req2, routed, t2) := dispatch s req1 response1 in
    match routed with
    | None => Faulted UncaughtException
    | Some response2 =>
        let '(req3, response3, t3) := compose s req2 response2 in
        let cl' := respondToClient cl response3 in
        Returned (mkResult true (updateActivity clock (mkConnection cl' (lastActivityMillis conn)))
                           clock (t1 ++ t2 ++ t3))
    end.

(** ** The receive buffer *)

(** [memcpy(buf.data() + at, src, src.size())]. *)
Definition memcpy_at (buf : list ascii) (at_ : Z) (src : list ascii) : list ascii :=
  take (Z.to_nat at_) buf ++ src ++ drop (Z.to_nat at_ + length src) buf.

(** [buf.resize(newSize)] when it grows: the new bytes are zero. *)
Definition resize (buf : list ascii) (newSize : Z) : list ascii :=
  take (Z.to_nat newSize) buf ++ replicate (Z.to_nat newSize - length buf) NUL.

(** What the C-string constructor of [String] reads from a pointer into the
    vector's storage [mem]: the bytes before the first NUL. [None] when the
    storage ends before a NUL is met, so that the scan runs past the end of
    the vector. *)
Fixpoint c_string (mem : list ascii) : option string :=
  match mem with
  | [] => None
  | c :: mem' =>
      if bool_decide (c = NUL) then Some EmptyString
      else String c <$> c_string mem'
  end.

(** "Extract request body":
<<
    String body = "";
    if (static_cast<size_t>(parse_result) < buflen) {
        size_t bodyLen = buflen - parse_result;
        if (bodyLen > 0) body = String(reinterpret_cast<const char*>(buf.data()) + parse_result);
    }
>>  *)
Definition extract_body (buf : list ascii) (parse_result buflen : Z) : option string :=
  if parse_result <? buflen then
    if 0 <? size_sub buflen parse_result
    then c_string (drop (Z.to_nat parse_result) buf)
    else Some EmptyString
  else Some EmptyString.

(** The same step in the earlier [HttpServer::handleClient]:
    [if (parse_result < buflen) body = String(buf.data() + parse_result)]. *)
Definition extract_body_handleClient (buf : list ascii) (parse_result buflen : Z)
  : option string :=
  if parse_result <? buflen
  then c_string (drop (Z.to_nat parse_result) buf)
  else Some EmptyString.

(** ** Building the request *)

Definition set_path (p : string) (r : HttpRequest) : HttpRequest :=
  mkRequest (req_method r) p (req_body r) (req_headers r)
            (req_query r) (req_params r) (req_headersLower r).

Definition set_query (k v : string) (r : HttpRequest) : HttpRequest :=
  mkRequest (req_method r) (req_path r) (req_body r) (req_headers r)
            (<[k := v]> (req_query r)) (req_params r) (req_headersLower r).

(** [full_path.find('?')]: the text before the first '?' and the text after
    it. *)
Fixpoint find_query (s : string) : option (string * string) :=
  match s with
  | EmptyString => None
  | String a s' =>
      if bool_decide (a = QUESTION) then Some (EmptyString, s')
      else (λ pq : string * string, (String a pq.1, pq.2)) <$> find_query s'
  end.

Section Serving.
Context `{Collaborators}.

Definition parse_query_pair (req : HttpRequest) (pair : string) : HttpRequest :=
  match split pair "=" with
  | [k; v] => set_query (upto_nul k) (upto_nul v) req
  | [k] => set_query (upto_nul k) "" req
  | _ => req
  end.

Definition parse_query (query_string : string) (req : HttpRequest) : HttpRequest :=
  foldl parse_query_pair req (split query_string "&").

(** "Build HttpRequest object" up to and including "Parse headers". *)
Definition build_request (out : phr_result) (body : string) : HttpRequest :=
  let full_path := string_of_list_ascii (phr_path out) in
  let req0 := mkRequest (string_of_list_ascii (phr_method out)) "/" body ∅ ∅ ∅ ∅ in
  let req1 :=
    match find_query full_path with
    | Some (p, q) => parse_query q (set_path (upto_nul p) req0)
    | None => set_path full_path req0
    end in
  let req2 := set_path (strip_trailing_slash (req_path req1)) req1 in
  foldl (λ req (h : list ascii * list ascii),
           add_header (string_of_list_ascii h.1) (string_of_list_ascii h.2) req)
        req2 (phr_headers out).

(** ** The read loop of [handleConnection] *)

(** The locals that live across iterations. [parse_result], [buflen] and
    [prevbuflen] are [size_t]. *)
Record loop_state := mkLoop {
  ls_parse_result : Z;
  ls_buflen : Z;
  ls_prevbuflen : Z;
  ls_buf : list ascii;
  ls_out : phr_result;      (* method, path, headers, num_headers *)
  ls_client : WiFiClient
}.

Inductive loop_exit :=
| LoopReturnFalse (cl : WiFiClient)   (* [return false] from inside the loop *)
| LoopLeft (st : loop_state)          (* the loop was left, by [break] or by its condition *)
| LoopFuel.                           (* the iteration bound of the model was hit *)

(** [while (parse_result <= 0) { ... }]. [parse_result] is unsigned, so the
    condition holds only for 0; the parser's [int] result is converted to
    [size_t] on assignment and the comparisons with -1 and -2 convert those
    constants the same way. *)
Fixpoint read_loop (s : HttpServer) (fuel : nat) (st : loop_state) : loop_exit :=
  if negb (ls_parse_result st <=? 0) then LoopLeft st
  else
    match fuel with
    | O => LoopFuel
    | S fuel' =>
        let cl := ls_client st in
        let prevbuflen := ls_prevbuflen st in
        if maxRequestSize s <=? prevbuflen then
          LoopReturnFalse (respondToClient cl (generateErrorResponse s 413 "Payload Too Large"))
        else
          let '(read_result, tmpBuf, cl1) := client_read cl DEFAULT_BUFFER_SIZE in
          if read_result =? -1 then LoopReturnFalse cl1
          else if read_result =? 0 then LoopReturnFalse cl1
          else
            let buflen := to_size_t read_result in
            if maxRequestSize s <? size_add buflen prevbuflen then
              LoopReturnFalse (respondToClient cl1 (generateErrorResponse s 413 "Payload Too Large"))
            else
              let buf1 :=
                if Z.of_nat (length (ls_buf st)) <? size_add buflen prevbuflen then
                  let newSize := size_add prevbuflen buflen in
                  let newSize := if maxRequestSize s <? newSize then maxRequestSize s else newSize in
                  resize (ls_buf st) newSize
                else ls_buf st in
              let buf2 := memcpy_at buf1 prevbuflen tmpBuf in
              let buflen := size_add buflen prevbuflen in
              let out := phr_parse_request (take (Z.to_nat buflen) buf2) prevbuflen in
              let parse_result := to_size_t (phr_ret out) in
              if parse_result =? to_size_t (-1) then
                LoopReturnFalse (respondToClient cl1 (generateErrorResponse s 400 "Bad Request"))
              else if parse_result =? to_size_t (-2) then
                (* prevbuflen = buflen; continue; *)
                read_loop s fuel' (mkLoop parse_result buflen buflen buf2 out cl1)
              else
                (* break; *)
                LoopLeft (mkLoop parse_result buflen prevbuflen buf2 out cl1)
    end.

(** The locals at loop entry. [method], [path] and [headers] are not
    initialised in the source; they are never read before the parser has
    written them. *)
Definition loop_init (cl : WiFiClient) : loop_state :=
  mkLoop 0 0 0 (replicate (Z.to_nat DEFAULT_BUFFER_SIZE) NUL) (mkPhr 0 [] [] []) cl.

(** Every iteration that does not leave the function consumes at least one
    byte of the inbox, which bounds the number of iterations. *)
Definition loop_bound (cl : WiFiClient) : nat := S (length (concat (cl_inbox cl))).

(** ** [HttpServer::handleConnection] *)

(** The receiving half, from the read loop to [logRequest(req)]: either the
    function returns early, or a request has been built, or the body scan
    left the buffer. *)
Inductive rx_outcome :=
| RxReturn (keep : bool) (cl : WiFiClient)
| RxRequest (req : HttpRequest) (cl : WiFiClient)
| RxOverread.

Definition receive (s : HttpServer) (cl : WiFiClient) : rx_outcome :=
  match read_loop s (loop_bound cl) (loop_init cl) with
  | LoopFuel => RxReturn false cl
  | LoopReturnFalse cl' => RxReturn false cl'
  | LoopLeft st =>
      if ls_parse_result st <=? 0 then RxReturn false (ls_client st)
      else
        match extract_body (ls_buf st) (ls_parse_result st) (ls_buflen st) with
        | None => RxOverread
        | Some body => RxRequest (build_request (ls_out st) body) (ls_client st)
        end
  end.

Definition handleConnection (s : HttpServer) (freeRam : Z) (clock : Z)
    (conn : HttpClientConnection) : hc_outcome :=
  if negb (hasEnoughMemory freeRam) then
    let response := generateErrorResponse s 503 "Service Unavailable" in
    Returned (mkResult false
                (mkConnection (respondToClient (client conn) response) (lastActivityMillis conn))
                clock [])
  else
    let cl := client conn in
    (* while (millis() - startWait < 4 && !client.available()) delay(1); *)
    let clock1 := if available cl =? 0 then clock + 4 else clock in
    if available cl =? 0 then Returned (mkResult true conn clock1 [])
    else
      match receive s cl with
      | RxReturn keep cl' =>
          Returned (mkResult keep (mkConnection cl' (lastActivityMillis conn)) clock1 [])
      | RxOverread => Faulted BufferOverread
      | RxRequest req cl' => serve s clock1 conn cl' req
      end.

(** ** [HttpServer::tick] *)

Definition U64_MODULUS : Z := 2 ^ 64.

(** The loop over [connections] of one tick, started at clock [start].
    Returns the connections that stay in the pool (in order), the clock and
    the trace, or the fault that ended the tick. *)
Fixpoint tick_loop (s : HttpServer) (freeRam : Z) (start : Z) (clock : Z)
    (conns : list HttpClientConnection)
  : fault + (list HttpClientConnection * Z * list event) :=
  match conns with
  | [] => inr ([], clock, [])
  | conn :: rest =>
      if connected conn then
        if negb (isActive clock conn) then
          (* erase; continue; *)
          tick_loop s freeRam start clock rest
        else
          match handleConnection s freeRam clock conn with
          | Faulted f => inl f
          | Returned r =>
              let kept := if hc_keep r then [hc_conn r] else [] in
              if 256 <? (millis (hc_clock r) - millis start) mod U64_MODULUS then
                inr (kept ++ rest, hc_clock r, hc_trace r)
              else
                match tick_loop s freeRam start (hc_clock r) rest with
                | inl f => inl f
                | inr (rest', clock', t) => inr (kept ++ rest', clock', hc_trace r ++ t)
                end
          end
      else
        (* erase; then the budget check *)
        if 256 <? (millis clock - millis start) mod U64_MODULUS then inr (rest, clock, [])
        else tick_loop s freeRam start clock rest
  end.

(** One [tick]: [incoming] is what [server.accept()] returns. *)
Definition tick (s : HttpServer) (freeRam : Z) (clock : Z) (incoming : option WiFiClient)
  : fault + (HttpServer * Z * list event) :=
  if negb (running s) then inr (s, clock, [])
  else
    let conns :=
      match incoming with
      | Some newClient => connections s ++ [HttpClientConnection_new clock newClient]
      | None => connections s
      end in
    match tick_loop s freeRam clock clock conns with
    | inl f => inl f
    | inr (conns', clock', t) => inr (set_connections conns' s, clock', t)
    end.

End Serving.

(** ** A reference parser and splitter for running the server on inputs *)

Definition CR : ascii := "013"%char.
Definition LF : ascii := "010"%char.
Definition SPACE : ascii := " "%char.

(** The bytes before the first blank line (CR LF CR LF) and the bytes after
    it. *)
Fixpoint find_blank_line (buf : list ascii) : option (list ascii * list ascii) :=
  match buf with
  | [] => None
  | c1 :: buf' =>
      match buf' with
      | c2 :: c3 :: c4 :: rest =>
          if bool_decide (c1 = CR) && bool_decide (c2 = LF)
             && bool_decide (c3 = CR) && bool_decide (c4 = LF)
          then Some ([], rest)
          else (λ br : list ascii * list ascii, (c1 :: br.1, br.2)) <$> find_blank_line buf'
      | _ => None
      end
  end.

Fixpoint split_crlf (cur : list ascii) (l : list ascii) : list (list ascii) :=
  match l with
  | [] => [cur]
  | c :: l' =>
      match l' with
      | d :: l'' =>
          if bool_decide (c = CR) && bool_decide (d = LF)
          then cur :: split_crlf [] l''
          else split_crlf (cur ++ [c]) l'
      | [] => [cur ++ [c]]
      end
  end.

Fixpoint split_on (d : ascii) (cur : list ascii) (l : list ascii) : list (list ascii) :=
  match l with
  | [] => [cur]
  | c :: l' =>
      if bool_decide (c = d) then cur :: split_on d [] l'
      else split_on d (cur ++ [c]) l'
  end.

Definition is_http_version (v : list ascii) : bool :=
  match v with
  | ["H"; "T"; "T"; "P"; "/"; "1"; "."; d]%char => bool_decide (is_Some (digit_of d))
  | _ => false
  end.

Fixpoint drop_blanks (l : list ascii) : list ascii :=
  match l with
  | c :: l' =>
      if bool_decide (c = SPACE) || bool_decide (c = "009"%char) then drop_blanks l' else l
  | [] => []
  end.

Fixpoint split_header (name : list ascii) (line : list ascii)
  : option (list ascii * list ascii) :=
  match line with
  | [] => None
  | c :: line' =>
      if bool_decide (c = COLON)
      then match name with [] => None | _ => Some (name, drop_blanks line') end
      else split_header (name ++ [c]) line'
  end.

Fixpoint parse_header_lines (lines : list (list ascii))
  : option (list (list ascii * list ascii)) :=
  match lines with
  | [] => Some []
  | line :: lines' =>
      match split_header [] line, parse_header_lines lines' with
      | Some h, Some hs => Some (h :: hs)
      | _, _ => None
      end
  end.

(** Modelled from the spec: [phr_parse_request] of the bundled picohttpparser
    is not among the sources. The spec gives it three outcomes on the bytes
    accumulated so far: complete (the method, the path with its query, the
    header list and the header-end offset), incomplete (-2) and malformed
    (-1); the wire format is a request line and headers terminated by a
    blank line, and a request line missing required tokens is malformed. *)
Definition phr_parse_request_model (buf : list ascii) (last_len : Z) : phr_result :=
  match find_blank_line buf with
  | None => mkPhr (-2) [] [] []
  | Some (block, _) =>
      match split_crlf [] block with
      | [] => mkPhr (-1) [] [] []
      | request_line :: header_lines =>
          match split_on SPACE [] request_line with
          | [m; p; v] =>
              if bool_decide (m = []) || bool_decide (p = []) || negb (is_http_version v)
              then mkPhr (-1) [] [] []
              else
                match parse_header_lines header_lines with
                | Some hs =>
                    if MAX_HEADERS <? Z.of_nat (length hs) then mkPhr (-1) m p []
                    else mkPhr (Z.of_nat (length block) + 4) m p hs
                | None => mkPhr (-1) m p []
                end
          | _ => mkPhr (-1) [] [] []
          end
      end
  end.

Fixpoint split_string_from (d : ascii) (cur : string) (s : string) : list string :=
  match s with
  | EmptyString => push_segment cur
  | String a s' =>
      if bool_decide (a = d) then cur :: split_string_from d EmptyString s'
      else split_string_from d (cur +:+ String a EmptyString) s'
  end.

(** Modelled from the spec: [split] of string_utils.hpp is not among the
    sources, and the spec only names its result, the query parameters of the
    request target. Here the pieces between delimiters are returned in
    order, without an empty last piece. *)
Definition split_model (s : string) (d : ascii) : list string :=
  split_string_from d EmptyString s.

Definition model : Collaborators :=
  {| phr_parse_request := phr_parse_request_model; split := split_model |}.

(** ** Concrete servers, requests and sockets *)

Definition bytes (s : string) : list ascii := list_ascii_of_string s.

Definition CRLF : string := String CR (String LF EmptyString).

Definition socket (segments : list (list ascii)) : WiFiClient := mkClient true segments [].

Definition fresh_connection (segments : list (list ascii)) : HttpClientConnection :=
  mkConnection (socket segments) 0.

Definition ok_handler (b : string) : RouteHandler :=
  λ req, (req, Some (mkResponse 200 b ∅)).

Definition get_root : list ascii := bytes ("GET / HTTP/1.1" +:+ CRLF +:+ CRLF).

Definition log_middleware : MiddlewareHandler := λ req res, (req, res).

Definition deny_middleware : MiddlewareHandlerBool :=
  λ req res, (false, req, text "Unauthorized" (setStatus 401 res)).

(** Two middlewares, the second of which sets 401 and halts, and a handler
    for the requested path. *)
Definition auth_server : HttpServer :=
  on_method "GET" "/secret" (ok_handler "secret data")
    (use deny_middleware (use_legacy log_middleware HttpServer_new)).

Definition get_secret : list ascii := bytes ("GET /secret HTTP/1.1" +:+ CRLF +:+ CRLF).

(** A POST with a 3000-byte body, as it arrives in TCP segments of 1460
    bytes, at a server limited to 2048 bytes. *)
Definition small_server : HttpServer := setMaxRequestSize 2048 HttpServer_new.

Definition big_post : list ascii :=
  bytes ("POST / HTTP/1.1" +:+ CRLF +:+ "Content-Length: 3000" +:+ CRLF +:+ CRLF)
  ++ replicate 3000 "a"%char.

Definition big_post_segments : list (list ascii) :=
  [take 1460 big_post; take 1460 (drop 1460 big_post); drop 2920 big_post].

Definition post_hello_head : string :=
  "POST /echo HTTP/1.1" +:+ CRLF +:+ "Content-Length: 5" +:+ CRLF +:+ CRLF.

Definition edit_route : RoutePattern :=
  make_pattern "GET" "/user/:id/edit" (ok_handler "edit").

Definition view_request : HttpRequest :=
  mkRequest "GET" "/user/42/view" "" ∅ ∅ ∅ ∅.

Definition options_request : HttpRequest :=
  mkRequest "OPTIONS" "/api/items" "" ∅ ∅ ∅ ∅.

Definition rx_request (o : rx_outcome) : option HttpRequest :=
  match o with RxRequest req _ => Some req | _ => None end.

Definition rx_client (o : rx_outcome) : option WiFiClient :=
  match o with RxRequest _ cl | RxReturn _ cl => Some cl | RxOverread => None end.

Definition returned (o : hc_outcome) : option hc_result :=
  match o with Returned r => Some r | Faulted _ => None end.

Definition sent (r : hc_result) : list HubHttpResponse := cl_outbox (client (hc_conn r)).

Definition pool (o : fault + (HttpServer * Z * list event)) : option (list HttpClientConnection) :=
  match o with inr (s, _, _) => Some (connections s) | inl _ => None end.

(** ** The properties in the words of the specification *)

(** The bytes of [l] before its first NUL (all of [l] when it has none). *)
Fixpoint bytes_upto_nul (l : list ascii) : string :=
  match l with
  | [] => EmptyString
  | c :: l' => if bool_decide (c = NUL) then EmptyString else String c (bytes_upto_nul l')
  end.

(** "A route matches iff its HTTP method matches case-insensitively and its
    segment list has equal length to the normalized path's /-split segments,
    with every literal segment equal"; a [:name] segment accepts any value.
    The segments of a path are the non-empty pieces between slashes. *)
Definition route_matches (rp : RoutePattern) (method path : string) : Prop :=
  equalsIgnoreCase (rp_method rp) method = true ∧
  length (rp_segments rp) = length (split_segments path) ∧
  ∀ (i : nat) (patSeg actSeg : string),
    rp_segments rp !! i = Some patSeg →
    split_segments path !! i = Some actSeg →
    startsWith COLON patSeg = false →
    patSeg = actSeg.

(** The [:name] segments of a pattern with the path segments at the same
    positions, in order. *)
Fixpoint captures (pat act : list string) : list (string * string) :=
  match pat, act with
  | patSeg :: pat', actSeg :: act' =>
      if startsWith COLON patSeg
      then (substring1 patSeg, actSeg) :: captures pat' act'
      else captures pat' act'
  | _, _ => []
  end.

Definition capture_all (kvs : list (string * string)) (params : gmap string string)
  : gmap string string :=
  foldl (λ m (kv : string * string), <[kv.1 := kv.2]> m) params kvs.

Definition no_pattern_matches (s : HttpServer) (method path : string) : Prop :=
  ∀ (r : nat) (rp : RoutePattern),
    patternHandlers s !! r = Some rp → ¬ route_matches rp method path.

(** The matching order of the router: patterns in registration order with
    the first match winning, then the exact-path table whatever the method,
    then the built-ins [/] and [/log], then not found. *)
Inductive resolves (s : HttpServer) (method path : string) : route_choice → Prop :=
| resolves_pattern (r : nat) (rp : RoutePattern) :
    patternHandlers s !! r = Some rp →
    route_matches rp method path →
    (∀ (r' : nat) (rp' : RoutePattern),
        (r' < r)%nat → patternHandlers s !! r' = Some rp' → ¬ route_matches rp' method path) →
    resolves s method path (ByPattern r)
| resolves_exact :
    no_pattern_matches s method path →
    is_Some (httpHandlers s !! path) →
    resolves s method path (ByExactPath path)
| resolves_root :
    no_pattern_matches s method path →
    httpHandlers s !! path = None →
    path = "/" →
    resolves s method path BuiltinRoot
| resolves_log :
    no_pattern_matches s method path →
    httpHandlers s !! path = None →
    path = "/log" →
    resolves s method path BuiltinLog
| resolves_not_found :
    no_pattern_matches s method path →
    httpHandlers s !! path = None →
    path ≠ "/" → path ≠ "/log" →
    resolves s method path NotFound.

(** Where the response of each choice comes from. *)
Definition produced_by (s : HttpServer) (req : HttpRequest) (response : HubHttpResponse)
    (choice : route_choice) (req' : HttpRequest) (result : option HubHttpResponse) : Prop :=
  ∃ req1 : HttpRequest,
    req_method req1 = req_method req ∧ req_path req1 = req_path req ∧
    match choice with
    | ByPattern r =>
        ∃ (rp : RoutePattern) (before : gmap string string),
          patternHandlers s !! r = Some rp ∧
          req_params req1
            = capture_all (captures (rp_segments rp) (split_segments (req_path req))) before ∧
          (req', result) = (let '(a, b) := invoke_guarded s (rp_handler rp) req1 in (a, Some b))
    | ByExactPath p =>
        ∃ h, httpHandlers s !! p = Some h ∧
             (req', result) = (let '(a, b) := invoke_guarded s h req1 in (a, Some b))
    | BuiltinRoot => req' = req1 ∧ result = Some (html (welcome_page s) response)
    | BuiltinLog => req' = req1 ∧ result = Some (log_endpoint s req1 response)
    | NotFound =>
        match notFoundHandler s with
        | Some h => (req', result) = h req1
        | None => req' = req1 ∧ result = Some (generateErrorResponse s 404 "Not Found")
        end
    end.

(** Two requests that differ at most in their path parameters. *)
Definition same_but_params (a b : HttpRequest) : Prop :=
  req_method a = req_method b ∧ req_path a = req_path b ∧ req_body a = req_body b ∧
  req_headers a = req_headers b ∧ req_query a = req_query b ∧
  req_headersLower a = req_headersLower b.

(** The path of a request target: the text before the first [?]. *)
Definition path_before_query (full_path : string) : string :=
  match find_query full_path with
  | Some (p, _) => upto_nul p
  | None => full_path
  end.

(** [req] with its body replaced. *)
Definition with_body (b : string) (r : HttpRequest) : HttpRequest :=
  mkRequest (req_method r) (req_path r) b (req_headers r)
            (req_query r) (req_params r) (req_headersLower r).

(** The vector after the first read stored [seg]: the bytes read, then the
    zeros the vector was created with. *)
Definition buffer_after (seg : list ascii) : list ascii :=
  seg ++ replicate (Z.to_nat DEFAULT_BUFFER_SIZE - length seg) NUL.

(** The socket once its first segment has been read. *)
Definition after_read (cl : WiFiClient) (rest : list (list ascii)) : WiFiClient :=
  mkClient (cl_connected cl) rest (cl_outbox cl).

Definition statuses (r : hc_result) : list Z := map status (sent r).

(** The [Connection] header of every response sent on every pooled
    connection. *)
Definition connection_headers (cs : list HttpClientConnection) : list (list (option string)) :=
  map (λ c, map (λ r, headers r !! "Connection") (cl_outbox (client c))) cs.

(** A pool with one connection on which a GET of the root path is waiting,
    at a server with the defaults ([keepAlive] is off). *)
Definition one_shot_server : HttpServer :=
  set_connections [fresh_connection [get_root]] HttpServer_new.

(** A pool with one silent connection, last active at time 0, at a server
    whose inactivity timeout was set to one second. *)
Definition impatient_server : HttpServer :=
  set_connections [mkConnection (socket []) 0]
                  (setConnectionInactivityTimeout 1000 HttpServer_new).

Definition impatient_config_server : HttpServer :=
  set_connections [mkConnection (socket []) 0]
                  (begin_config (mkConfig 8192 1000 false) HttpServer_new).

(** A server whose only route is [GET /user/:id/edit]. *)
Definition edit_server : HttpServer :=
  on_method "GET" "/user/:id/edit" (ok_handler "edit") HttpServer_new.

(** The POST of [post_hello_head] with its five body bytes, delivered in
    one read, split after the header block, and split inside the body. *)
Definition hello_single : WiFiClient := socket [bytes (post_hello_head +:+ "hello")].
Definition hello_split_at_body : WiFiClient := socket [bytes post_hello_head; bytes "hello"].
Definition hello_split_in_body : WiFiClient :=
  socket [bytes (post_hello_head +:+ "he"); bytes "llo"].

(** A body with a zero byte in it, and a request that fills the buffer to
    its last byte. *)
Definition binary_post : list ascii :=
  bytes (post_hello_head +:+ "ab") ++ NUL :: bytes "cd".

Definition full_buffer_post : list ascii :=
  bytes post_hello_head ++ replicate (2048 - length (bytes post_hello_head)) "a"%char.

(** The two requests agree in everything but the body. *)
Definition same_but_body (a b : HttpRequest) : Prop :=
  req_method a = req_method b ∧ req_path a = req_path b ∧
  req_headers a = req_headers b ∧ req_query a = req_query b ∧
  req_params a = req_params b ∧ req_headersLower a = req_headersLower b.

(** The response to a CORS preflight. *)
Definition preflight_response (s : HttpServer) : HubHttpResponse :=
  mkResponse 204 ""
    (<["Access-Control-Max-Age" := "86400"]>
      (<["Access-Control-Allow-Headers" := corsHeaders s]>
        (<["Access-Control-Allow-Methods" := corsMethods s]>
          (<["Access-Control-Allow-Origin" := corsOrigin s]> ∅)))).

Definition cors_server : HttpServer :=
  enableCORS "*" "GET, POST" "Content-Type"
    (use deny_middleware (on "/api/items" (ok_handler "items") HttpServer_new)).

(** A server with the pattern [GET /api/user/:id] and an exact-path handler
    for a path that the pattern also matches. *)
Definition user_server : HttpServer :=
  on "/api/user/42" (ok_handler "exact")
    (on_method "GET" "/api/user/:id" (ok_handler "pattern") HttpServer_new).

Definition user_request (method : string) : HttpRequest :=
  mkRequest method "/api/user/42" "" ∅ ∅ ∅ ∅.

Definition get_options : list ascii := bytes ("OPTIONS /api/items HTTP/1.1" +:+ CRLF +:+ CRLF).

(** The next tick after the outcome [o] of a tick, with no new client. *)
Definition tick_again (freeRam : Z) (o : fault + (HttpServer * Z * list event))
  : fault + (HttpServer * Z * list event) :=
  match o with
  | inr (s, clock, _) => @tick model s freeRam clock None
  | inl f => inl f
  end.

(** As [one_shot_server], with a second GET arriving on the same connection
    after the first. *)
Definition two_shot_server : HttpServer :=
  set_connections [fresh_connection [get_root; get_root]] HttpServer_new.

(** ** The receiving half without its loop *)

(** One read, one parse and the decisions taken on their results, in the
    order in which [handleConnection] takes them. *)
Definition receive_once `{Collaborators} (s : HttpServer) (cl : WiFiClient) : rx_outcome :=
  if maxRequestSize s <=? 0 then
    RxReturn false (respondToClient cl (generateErrorResponse s 413 "Payload Too Large"))
  else
    let '(read_result, got, cl1) := client_read cl DEFAULT_BUFFER_SIZE in
    if read_result =? -1 then RxReturn false cl1
    else if read_result =? 0 then RxReturn false cl1
    else if maxRequestSize s <? read_result then
      RxReturn false (respondToClient cl1 (generateErrorResponse s 413 "Payload Too Large"))
    else
      let out := phr_parse_request got 0 in
      let parse_result := to_size_t (phr_ret out) in
      if parse_result =? to_size_t (-1) then
        RxReturn false (respondToClient cl1 (generateErrorResponse s 400 "Bad Request"))
      else if parse_result <=? 0 then RxReturn false cl1
      else
        match extract_body (buffer_after got) parse_result read_result with
        | None => RxOverread
        | Some b => RxRequest (build_request out b) cl1
        end.

(** The bytes a socket still holds. *)
Definition pending (cl : WiFiClient) : list ascii := concat (cl_inbox cl).

(** A request that is not well formed: the request line has no target. *)
Definition bad_request_line : list ascii := bytes ("GET" +:+ CRLF +:+ CRLF).

(** A request whose header block has not ended yet. *)
Definition unfinished_request : list ascii :=
  bytes ("GET /secret HTTP/1.1" +:+ CRLF +:+ "Host: hub").

(** Whether the CORS preflight branch of [handleConnection] is taken. *)
Definition is_preflight (s : HttpServer) (req : HttpRequest) : bool :=
  corsEnabled s && bool_decide (req_method req = "OPTIONS").




(** ** Further registration members *)


(** [onError(handler)]. *)
Definition onError (h : ErrorHandler) (s : HttpServer) : HttpServer :=
  mkServer (running s) (corsEnabled s) (logger s) (maxRequestSize s)
           (connectionInactivityTimeout s) (keepAlive s) (serverName s) (serverVersion s)
           (corsOrigin s) (corsMethods s) (corsHeaders s) (httpHandlers s)
           (patternHandlers s) (middlewares s) (notFoundHandler s) (Some h)
           (connections s) (defaultHeaders s) (beforeSendHook s).

(** [onBeforeSend(finalizer)]. *)
Definition onBeforeSend (hook : BeforeSendHook) (s : HttpServer) : HttpServer :=
  mkServer (running s) (corsEnabled s) (logger s) (maxRequestSize s)
           (connectionInactivityTimeout s) (keepAlive s) (serverName s) (serverVersion s)
           (corsOrigin s) (corsMethods s) (corsHeaders s) (httpHandlers s)
           (patternHandlers s) (middlewares s) (notFoundHandler s) (errorHandler s)
           (connections s) (defaultHeaders s) (Some hook).

Definition set_defaultHeaders (d : gmap string string) (s : HttpServer) : HttpServer :=
  mkServer (running s) (corsEnabled s) (logger s) (maxRequestSize s)
           (connectionInactivityTimeout s) (keepAlive s) (serverName s) (serverVersion s)
           (corsOrigin s) (corsMethods s) (corsHeaders s) (httpHandlers s)
           (patternHandlers s) (middlewares s) (notFoundHandler s) (errorHandler s)
           (connections s) d (beforeSendHook s).

(** [addDefaultHeader], [removeDefaultHeader] and [clearDefaultHeaders]. *)
Definition addDefaultHeader (name value : string) (s : HttpServer) : HttpServer :=
  set_defaultHeaders (<[name := value]> (defaultHeaders s)) s.
Definition removeDefaultHeader (name : string) (s : HttpServer) : HttpServer :=
  set_defaultHeaders (delete name (defaultHeaders s)) s.
Definition clearDefaultHeaders (s : HttpServer) : HttpServer :=
  set_defaultHeaders ∅ s.

(** [disableCORS()]. *)
Definition disableCORS (s : HttpServer) : HttpServer :=
  mkServer (running s) false (logger s) (maxRequestSize s)
           (connectionInactivityTimeout s) (keepAlive s) (serverName s) (serverVersion s)
           (corsOrigin s) (corsMethods s) (corsHeaders s) (httpHandlers s)
           (patternHandlers s) (middlewares s) (notFoundHandler s) (errorHandler s)
           (connections s) (defaultHeaders s) (beforeSendHook s).

(** The loop of [applyDefaultHeaders] as it is written: every entry of
    [defaultHeaders] is visited once and set on the response unless the
    response has a header of that name by then. *)
Definition applyDefaultHeaders_loop (s : HttpServer) (response : HubHttpResponse)
  : HubHttpResponse :=
  map_fold (λ (name value : string) (r : HubHttpResponse),
              if bool_decide (is_Some (headers r !! name)) then r
              else setHeader name value r)
           response (defaultHeaders s).

(** The names that [applyCORS] sets. *)
Definition cors_header_names : list string :=
  ["Access-Control-Allow-Origin"; "Access-Control-Allow-Methods";
   "Access-Control-Allow-Headers"; "Access-Control-Max-Age"].

(** A middleware that lets every request pass. *)
Definition always_continues (mw : MiddlewareHandlerBool) : Prop :=
  ∀ (req : HttpRequest) (response : HubHttpResponse), (mw req response).1.1 = true.

(** Registration of a list of legacy middlewares, first to last. *)
Definition use_all_legacy (mws : list MiddlewareHandler) (s : HttpServer) : HttpServer :=
  foldl (λ acc mw, use_legacy mw acc) s mws.


Definition branded_server : HttpServer :=
  addDefaultHeader "Server" "Hidden" (addDefaultHeader "X-Frame-Options" "DENY"
    (addDefaultHeader "Connection" "upgrade" HttpServer_new)).

(** The characters of a [String]. *)
Definition chars (s : string) : list ascii := list_ascii_of_string s.

(** The wrapper that [use(MiddlewareHandler)] stores. *)
Definition wrap_legacy (mw : MiddlewareHandler) : MiddlewareHandlerBool :=
  λ req res, let '(req', res') := mw req res in (true, req', res').

(** ** Further members of [HttpRequest] *)

(** [HttpRequest::hasHeader]. *)
Definition hasHeader (r : HttpRequest) (name : string) : bool :=
  bool_decide (is_Some (req_headersLower r !! toLowerCase name)).

(** [HttpRequest::getContentType]. *)
Definition getContentType (r : HttpRequest) : string := getHeader r "Content-Type" "".

(** The value of the last header in [hs] whose name is [lname] once put in
    lower case. *)
Fixpoint last_header (hs : list (list ascii * list ascii)) (lname : string)
  : option string :=
  match hs with
  | [] => None
  | h :: hs' =>
      match last_header hs' lname with
      | Some v => Some v
      | None =>
          if bool_decide (toLowerCase (string_of_list_ascii h.1) = lname)
          then Some (string_of_list_ascii h.2)
          else None
      end
  end.

(** A request with a differently spelled header name twice. *)
Definition typed_post : list ascii :=
  bytes ("POST /echo HTTP/1.1" +:+ CRLF +:+ "content-type: text/plain" +:+ CRLF
         +:+ "Content-TYPE: application/json" +:+ CRLF +:+ CRLF).

(** A pool with a client that has gone away between two that are idle. *)
Definition mixed_pool_server : HttpServer :=
  set_connections [mkConnection (socket []) 0;
                   mkConnection (mkClient false [] []) 0;
                   mkConnection (socket []) 0] HttpServer_new.

(** How many connections [accept] adds in a tick. *)
Definition accepted (incoming : option WiFiClient) : nat :=
  match incoming with Some _ => 1%nat | None => 0%nat end.

(** ** The body loop of [respondToClient] *)

Definition WRITE_TIMEOUT_MS : Z := 1000.
Definition WRITE_CHUNK_SIZE : Z := 512.

(** "Send body in chunks". [accepts] lists, for the successive calls of
    [client.write], how many bytes the socket takes at most; when the list
    is used up the socket takes none. [wire] collects the bytes the socket
    took. Time passes in [delay(1)] only. The result is the value returned,
    the bytes on the wire and the clock; [None] stands for the iteration
    bound of the model. *)
Fixpoint write_loop (fuel : nat) (total_bytes : Z) (body_bytes : list ascii)
    (start bytes_written clock : Z) (accepts : list Z) (wire : list ascii)
  : option (bool * list ascii * Z) :=
  if negb (bytes_written <? total_bytes) then Some (true, wire, clock)
  else
    match fuel with
    | O => None
    | S fuel' =>
        if WRITE_TIMEOUT_MS <? size_sub (millis clock) start then Some (false, wire, clock)
        else
          let remaining := size_sub total_bytes bytes_written in
          let chunk_size :=
            if remaining <? WRITE_CHUNK_SIZE then remaining else WRITE_CHUNK_SIZE in
          let capacity := match accepts with [] => 0 | c :: _ => c end in
          let written := Z.max 0 (Z.min chunk_size capacity) in
          if written =? 0 then Some (false, wire, clock)
          else
            let taken :=
              take (Z.to_nat written) (drop (Z.to_nat bytes_written) body_bytes) in
            let bytes_written' := size_add bytes_written written in
            let clock' := if bytes_written' <? total_bytes then clock + 1 else clock in
            write_loop fuel' total_bytes body_bytes start bytes_written' clock'
                       (tail accepts) (wire ++ taken)
    end.

(** The part of [respondToClient] after the header block, for a body of
    [total_bytes] bytes. Every pass of the loop that goes on writes at least
    one byte, which bounds the number of passes. *)
Definition send_body (total_bytes : Z) (body_bytes : list ascii) (clock : Z)
    (accepts : list Z) : option (bool * list ascii * Z) :=
  if 0 <? total_bytes then
    write_loop (Z.to_nat total_bytes) total_bytes body_bytes (millis clock) 0 clock accepts []
  else Some (true, [], clock).

(** [stop()]. *)
Definition stop (s : HttpServer) : HttpServer :=
  mkServer false (corsEnabled s) (logger s) (maxRequestSize s)
           (connectionInactivityTimeout s) (keepAlive s) (serverName s) (serverVersion s)
           (corsOrigin s) (corsMethods s) (corsHeaders s) (httpHandlers s)
           (patternHandlers s) (middlewares s) (notFoundHandler s) (errorHandler s)
           (connections s) (defaultHeaders s) (beforeSendHook s).

(** [begin(config)] with its guard: a server that is already running is
    left as it is. *)
Definition begin_guarded (config : HttpServerConfig) (s : HttpServer) : HttpServer :=
  if running s then s else begin_config config s.

(** A server started with a limit of 100 bytes. *)
Definition tiny_server : HttpServer :=
  begin_guarded (mkConfig 100 300000 false) (stop HttpServer_new).

(** * Verification *)

(** ** Paths and segments *)

Lemma endsWith_app_slash (p : string) : endsWith SLASH (p +:+ "/") = true.
Proof.
  induction p as [|a p IH]; [reflexivity|].
  change (String a p +:+ "/") with (String a (p +:+ "/")).
  destruct (p +:+ "/") eqn:E; [destruct p; discriminate | exact IH].
Qed.

Lemma remove_last_app_slash (p : string) : remove_last (p +:+ "/") = p.
Proof.
  induction p as [|a p IH]; [reflexivity|].
  change (String a p +:+ "/") with (String a (p +:+ "/")).
  destruct (p +:+ "/") eqn:E.
  - destruct p; discriminate.
  - cbn [remove_last] in *. rewrite IH. reflexivity.
Qed.

Lemma length_app_slash (p : string) : String.length (p +:+ "/") = S (String.length p).
Proof.
  induction p as [|a p IH]; [reflexivity|].
  change (String a p +:+ "/") with (String a (p +:+ "/")).
  cbn [String.length]. f_equal. exact IH.
Qed.

Lemma strip_trailing_slash_root : strip_trailing_slash "/" = "/".
Proof. reflexivity. Qed.

Lemma strip_trailing_slash_strips (p : string) :
  p ≠ "" → strip_trailing_slash (p +:+ "/") = p.
Proof.
  intros Hp. unfold strip_trailing_slash, zlength.
  rewrite endsWith_app_slash, length_app_slash.
  destruct p as [|a p]; [done|].
  replace (1 <? Z.of_nat (S (String.length (String a p)))) with true
    by (symmetry; apply Z.ltb_lt; cbn [String.length]; lia).
  cbn [andb]. apply remove_last_app_slash.
Qed.

Lemma strip_trailing_slash_keeps (p : string) :
  endsWith SLASH p = false → strip_trailing_slash p = p.
Proof. intros E. unfold strip_trailing_slash. rewrite E, andb_false_r. reflexivity. Qed.

Lemma split_from_remove_last (s cur : string) :
  endsWith SLASH s = true → split_from cur (remove_last s) = split_from cur s.
Proof.
  revert cur. induction s as [|a s IH]; intros cur E; [discriminate|].
  destruct s as [|b s].
  - cbn in E. apply bool_decide_eq_true in E. subst a.
    cbn. rewrite app_nil_r. reflexivity.
  - change (remove_last (String a (String b s))) with (String a (remove_last (String b s))).
    change (endsWith SLASH (String a (String b s))) with (endsWith SLASH (String b s)) in E.
    cbn [split_from]. case_bool_decide.
    + f_equal. apply IH, E.
    + apply IH, E.
Qed.

(** [matchPattern] normalises a path that [handleConnection] has already
    normalised; for the segments it makes no difference. *)
Lemma split_segments_strip (p : string) :
  split_segments (strip_trailing_slash p) = split_segments p.
Proof.
  unfold strip_trailing_slash.
  destruct (1 <? zlength p); cbn [andb]; [|reflexivity].
  destruct (endsWith SLASH p) eqn:E; [|reflexivity].
  apply split_from_remove_last, E.
Qed.

(** ** [matchPattern] *)

Lemma same_but_params_refl (a : HttpRequest) : same_but_params a a.
Proof. repeat split. Qed.

Lemma same_but_params_trans (a b c : HttpRequest) :
  same_but_params a b → same_but_params b c → same_but_params a c.
Proof. unfold same_but_params. intros; destruct_and!; repeat split; congruence. Qed.

Lemma match_segments_frame (pat act : list string) (req : HttpRequest) :
  same_but_params (match_segments pat act req).2 req.
Proof.
  revert act req. induction pat as [|p pat IH]; intros [|a act] req;
    try apply same_but_params_refl.
  cbn [match_segments]. destruct (startsWith COLON p).
  - eapply same_but_params_trans; [apply IH|]. repeat split.
  - case_bool_decide; [apply same_but_params_refl | apply IH].
Qed.

Lemma match_segments_true (pat act : list string) (req : HttpRequest) :
  length pat = length act →
  (match_segments pat act req).1 = true ↔
  (∀ (i : nat) (patSeg actSeg : string),
      pat !! i = Some patSeg → act !! i = Some actSeg →
      startsWith COLON patSeg = false → patSeg = actSeg).
Proof.
  revert act req. induction pat as [|p pat IH]; intros [|a act] req Hlen;
    try discriminate.
  - split; [intros _ i ? ? Hi; discriminate | reflexivity].
  - injection Hlen as Hlen. cbn [match_segments].
    destruct (startsWith COLON p) eqn:Ep.
    + rewrite IH by exact Hlen. split.
      * intros Hall [|i] ps as_ Hp Ha Hs; cbn in Hp, Ha.
        -- congruence.
        -- eapply Hall; eassumption.
      * intros Hall i ps as_ Hp Ha Hs. apply (Hall (S i)); assumption.
    + case_bool_decide as Hne.
      * split; [discriminate|]. intros Hall. exfalso. apply Hne.
        apply (Hall 0%nat); [reflexivity | reflexivity | exact Ep].
      * subst a. rewrite IH by exact Hlen. split.
        -- intros Hall [|i] ps as_ Hp Ha Hs; cbn in Hp, Ha.
           ++ congruence.
           ++ eapply Hall; eassumption.
        -- intros Hall i ps as_ Hp Ha Hs. apply (Hall (S i)); assumption.
Qed.

Lemma match_segments_params (pat act : list string) (req : HttpRequest) :
  (match_segments pat act req).1 = true →
  req_params (match_segments pat act req).2
    = capture_all (captures pat act) (req_params req).
Proof.
  revert act req. induction pat as [|p pat IH]; intros [|a act] req; try reflexivity.
  cbn [match_segments captures]. destruct (startsWith COLON p).
  - intros Hm. rewrite IH by exact Hm. reflexivity.
  - case_bool_decide; [discriminate|]. apply IH.
Qed.

Lemma matchPattern_frame (rp : RoutePattern) (method path : string) (req : HttpRequest) :
  same_but_params (matchPattern rp method path req).2 req.
Proof.
  unfold matchPattern.
  destruct (equalsIgnoreCase (rp_method rp) method); cbn [negb];
    [|apply same_but_params_refl].
  case_bool_decide; [apply same_but_params_refl | apply match_segments_frame].
Qed.

Lemma matchPattern_true (rp : RoutePattern) (method path : string) (req : HttpRequest) :
  (matchPattern rp method path req).1 = true ↔ route_matches rp method path.
Proof.
  unfold matchPattern, route_matches. rewrite split_segments_strip.
  destruct (equalsIgnoreCase (rp_method rp) method); cbn [negb].
  2: { split; [discriminate | intros [? _]; discriminate]. }
  case_bool_decide as Hlen.
  - split; [discriminate | intros (_ & Hl & _); congruence].
  - rewrite match_segments_true by congruence.
    split; [intros Hall; split_and!; [reflexivity | congruence | exact Hall]
           | intros (_ & _ & Hall); exact Hall].
Qed.

Lemma matchPattern_params (rp : RoutePattern) (method path : string) (req : HttpRequest) :
  (matchPattern rp method path req).1 = true →
  req_params (matchPattern rp method path req).2
    = capture_all (captures (rp_segments rp) (split_segments path)) (req_params req).
Proof.
  unfold matchPattern. rewrite split_segments_strip.
  destruct (equalsIgnoreCase (rp_method rp) method); cbn [negb]; [|discriminate].
  case_bool_decide; [discriminate|]. apply match_segments_params.
Qed.

Lemma capture_all_cons (kv : string * string) (kvs : list (string * string))
    (m : gmap string string) :
  capture_all (kv :: kvs) m = capture_all kvs (<[kv.1 := kv.2]> m).
Proof. reflexivity. Qed.

Lemma capture_all_lookup_other (kvs : list (string * string)) (m : gmap string string)
    (k : string) :
  (∀ kv : string * string, kv ∈ kvs → kv.1 ≠ k) →
  capture_all kvs m !! k = m !! k.
Proof.
  revert m. induction kvs as [|kv kvs IH]; intros m Hk; [reflexivity|].
  rewrite capture_all_cons, IH.
  - apply lookup_insert_ne, Hk. left.
  - intros kv' Hin. apply Hk. right. exact Hin.
Qed.

Lemma captures_key (pat act : list string) (kv : string * string) :
  kv ∈ captures pat act →
  ∃ (j : nat) (patSeg : string),
    pat !! j = Some patSeg ∧ startsWith COLON patSeg = true ∧ substring1 patSeg = kv.1.
Proof.
  revert act. induction pat as [|p pat IH]; intros [|a act] Hin;
    try (cbn in Hin; apply elem_of_nil in Hin; contradiction).
  cbn [captures] in Hin. destruct (startsWith COLON p) eqn:Ep.
  - apply elem_of_cons in Hin as [-> | Hin].
    + exists 0%nat, p. auto.
    + destruct (IH _ Hin) as (j & ps & ? & ? & ?). exists (S j), ps. auto.
  - destruct (IH _ Hin) as (j & ps & ? & ? & ?). exists (S j), ps. auto.
Qed.

(** Every [:name] segment leaves the path segment of its position in
    [params[name]], unless a later segment of the same name overwrites it. *)
Lemma captures_lookup (pat act : list string) (before : gmap string string)
    (i : nat) (patSeg actSeg : string) :
  pat !! i = Some patSeg → act !! i = Some actSeg →
  startsWith COLON patSeg = true →
  (∀ (j : nat) (later : string),
      (i < j)%nat → pat !! j = Some later → startsWith COLON later = true →
      substring1 later ≠ substring1 patSeg) →
  capture_all (captures pat act) before !! substring1 patSeg = Some actSeg.
Proof.
  revert act before i.
  induction pat as [|p pat IH]; intros [|a act] before [|i] Hp Ha Hs Hlast;
    try discriminate.
  - cbn in Hp, Ha. injection Hp as ->. injection Ha as ->.
    cbn [captures]. rewrite Hs, capture_all_cons. cbn [fst snd].
    rewrite capture_all_lookup_other; [apply lookup_insert_eq|].
    intros kv Hin. destruct (captures_key _ _ _ Hin) as (j & ps & Hj & Hc & <-).
    apply (Hlast (S j)); [lia | exact Hj | exact Hc].
  - cbn in Hp, Ha. cbn [captures].
    assert (Hlast' : ∀ (j : nat) (later : string),
               (i < j)%nat → pat !! j = Some later → startsWith COLON later = true →
               substring1 later ≠ substring1 patSeg).
    { intros j later Hij Hj Hc. apply (Hlast (S j)); [lia | exact Hj | exact Hc]. }
    destruct (startsWith COLON p).
    + rewrite capture_all_cons. apply (IH act _ i); assumption.
    + apply (IH act _ i); assumption.
Qed.

(** ** The pattern scan and the dispatch *)

Lemma scan_patterns_spec (pats : list RoutePattern) (r : nat) (req : HttpRequest)
    (hit : option (nat * RoutePattern)) (req' : HttpRequest) (t : list event) :
  scan_patterns r pats req = (hit, req', t) →
  same_but_params req' req ∧
  match hit with
  | Some (k, rp) =>
      ∃ (i : nat) (before : gmap string string),
        k = (r + i)%nat ∧ pats !! i = Some rp ∧
        route_matches rp (req_method req) (req_path req) ∧
        (∀ (j : nat) (rp' : RoutePattern),
            (j < i)%nat → pats !! j = Some rp' →
            ¬ route_matches rp' (req_method req) (req_path req)) ∧
        req_params req'
          = capture_all (captures (rp_segments rp) (split_segments (req_path req))) before
  | None =>
      ∀ (i : nat) (rp : RoutePattern),
        pats !! i = Some rp → ¬ route_matches rp (req_method req) (req_path req)
  end.
Proof.
  revert r req hit req' t.
  induction pats as [|rp pats IH]; intros r req hit req' t Hscan.
  - cbn in Hscan. injection Hscan as <- <- <-.
    split; [apply same_but_params_refl|]. intros i rp Hi. discriminate.
  - cbn [scan_patterns] in Hscan.
    pose proof (matchPattern_frame rp (req_method req) (req_path req) req) as Hframe.
    pose proof (matchPattern_true rp (req_method req) (req_path req) req) as Htrue.
    pose proof (matchPattern_params rp (req_method req) (req_path req) req) as Hpar.
    destruct (matchPattern rp (req_method req) (req_path req) req) as [ok req1].
    cbn [fst snd] in *. destruct ok.
    + injection Hscan as <- <- <-. split; [exact Hframe|].
      exists 0%nat, (req_params req). split_and!.
      * lia.
      * reflexivity.
      * apply Htrue. reflexivity.
      * intros j rp' Hj. lia.
      * apply Hpar. reflexivity.
    + destruct (scan_patterns (S r) pats req1) as [[hit1 req2] t1] eqn:Erest.
      injection Hscan as <- <- <-.
      destruct (IH _ _ _ _ _ Erest) as [Hframe2 Hhit].
      assert (Hm : req_method req1 = req_method req) by apply Hframe.
      assert (Hp : req_path req1 = req_path req) by apply Hframe.
      rewrite Hm, Hp in Hhit.
      split; [eapply same_but_params_trans; eassumption|].
      assert (Hno : ¬ route_matches rp (req_method req) (req_path req)).
      { intros Hyes. apply Htrue in Hyes. discriminate. }
      destruct hit1 as [[k rp1]|].
      * destruct Hhit as (i & before & -> & Hi & Hmatch & Hfirst & Hparams).
        exists (S i), before. split_and!; [lia | exact Hi | exact Hmatch | | exact Hparams].
        intros [|j] rp' Hj Hl; cbn in Hl.
        -- injection Hl as <-. exact Hno.
        -- apply (Hfirst j); [lia | exact Hl].
      * intros [|i] rp' Hi; cbn in Hi.
        -- injection Hi as <-. exact Hno.
        -- apply (Hhit i), Hi.
Qed.

Lemma dispatch_spec (s : HttpServer) (req : HttpRequest) (response : HubHttpResponse) :
  resolves s (req_method req) (req_path req) (dispatch s req response).1.1.1 ∧
  produced_by s req response (dispatch s req response).1.1.1
              (dispatch s req response).1.1.2 (dispatch s req response).1.2.
Proof.
  unfold dispatch.
  destruct (scan_patterns 0 (patternHandlers s) req) as [[hit req1] t1] eqn:Escan.
  apply scan_patterns_spec in Escan as [Hframe Hhit].
  assert (Hm : req_method req1 = req_method req) by apply Hframe.
  assert (Hp : req_path req1 = req_path req) by apply Hframe.
  destruct hit as [[k rp]|].
  - destruct Hhit as (i & before & -> & Hi & Hmatch & Hfirst & Hparams).
    destruct (invoke_guarded s (rp_handler rp) req1) as [req2 response2] eqn:Einv.
    cbn [fst snd Nat.add]. split.
    + eapply resolves_pattern; eassumption.
    + exists req1. split_and!; [exact Hm | exact Hp |].
      exists rp, before. rewrite Einv. auto.
  - assert (Hnone : no_pattern_matches s (req_method req) (req_path req)) by exact Hhit.
    rewrite Hp. destruct (httpHandlers s !! req_path req) as [h|] eqn:Eexact.
    + destruct (invoke_guarded s h req1) as [req2 response2] eqn:Einv.
      cbn [fst snd]. split.
      * apply resolves_exact; [exact Hnone | rewrite Eexact; eauto].
      * exists req1. split_and!; [exact Hm | exact Hp |].
        exists h. rewrite Einv. auto.
    + case_bool_decide as Hroot.
      { cbn [fst snd]. split; [apply resolves_root; assumption|].
        exists req1. auto. }
      case_bool_decide as Hlog.
      { cbn [fst snd]. split; [apply resolves_log; assumption|].
        exists req1. auto. }
      destruct (notFoundHandler s) as [h|] eqn:Enf.
      * destruct (h req1) as [req2 result] eqn:Eh. cbn [fst snd].
        split; [apply resolves_not_found; assumption|].
        exists req1. rewrite Enf, Eh. auto.
      * cbn [fst snd]. split; [apply resolves_not_found; assumption|].
        exists req1. rewrite Enf. auto.
Qed.

(** ** Request construction *)

Section Construction.
Context `{Collaborators}.

Lemma parse_query_frame (pairs : list string) (req : HttpRequest) :
  let req' := foldl parse_query_pair req pairs in
  req_method req' = req_method req ∧ req_path req' = req_path req ∧
  req_body req' = req_body req ∧ req_headers req' = req_headers req ∧
  req_params req' = req_params req ∧ req_headersLower req' = req_headersLower req.
Proof.
  revert req. induction pairs as [|pair pairs IH]; intros req; [cbn; auto 10|].
  cbn [foldl]. specialize (IH (parse_query_pair req pair)). cbn zeta in IH.
  destruct IH as (-> & -> & -> & -> & -> & ->).
  unfold parse_query_pair. destruct (split pair "=") as [|k [|v [|]]]; cbn; auto 10.
Qed.

Lemma add_headers_frame (hs : list (list ascii * list ascii)) (req : HttpRequest) :
  let req' := foldl (λ req (h : list ascii * list ascii),
                       add_header (string_of_list_ascii h.1) (string_of_list_ascii h.2) req)
                    req hs in
  req_method req' = req_method req ∧ req_path req' = req_path req ∧
  req_body req' = req_body req ∧ req_query req' = req_query req ∧
  req_params req' = req_params req.
Proof.
  revert req. induction hs as [|h hs IH]; intros req; [cbn; auto 10|].
  cbn [foldl]. specialize (IH (add_header (string_of_list_ascii h.1)
                                          (string_of_list_ascii h.2) req)).
  cbn zeta in IH. destruct IH as (-> & -> & -> & -> & ->). cbn. auto 10.
Qed.

(** The request that [handleConnection] builds has the method the parser
    reported, the normalised path, the body it was given and no path
    parameters. *)
Lemma build_request_fields (out : phr_result) (b : string) :
  let req := build_request out b in
  req_method req = string_of_list_ascii (phr_method out) ∧
  req_path req
    = strip_trailing_slash (path_before_query (string_of_list_ascii (phr_path out))) ∧
  req_body req = b ∧
  req_params req = ∅.
Proof.
  cbn zeta. unfold build_request.
  match goal with |- context [foldl ?f ?r (phr_headers out)] =>
    pose proof (add_headers_frame (phr_headers out) r) as Hh end.
  cbn zeta in Hh. destruct Hh as (-> & -> & -> & _ & ->).
  cbn [req_method req_path req_body req_params set_path].
  unfold path_before_query.
  destruct (find_query (string_of_list_ascii (phr_path out))) as [[p q]|].
  - unfold parse_query.
    match goal with |- context [foldl parse_query_pair ?r ?l] =>
      pose proof (parse_query_frame l r) as Hq end.
    cbn zeta in Hq. destruct Hq as (-> & -> & -> & _ & -> & _). cbn. auto.
  - cbn. auto.
Qed.

End Construction.

(** ** The read loop *)

Lemma SIZE_MODULUS_eq : SIZE_MODULUS = 4294967296.
Proof. reflexivity. Qed.

Lemma to_size_t_small (z : Z) : 0 ≤ z < SIZE_MODULUS → to_size_t z = z.
Proof. intros Hz. unfold to_size_t. apply Z.mod_small, Hz. Qed.

Lemma minus_one_size_t : to_size_t (-1) = 4294967295.
Proof. reflexivity. Qed.

Lemma minus_two_size_t : to_size_t (-2) = 4294967294.
Proof. reflexivity. Qed.

Lemma DEFAULT_BUFFER_SIZE_eq : DEFAULT_BUFFER_SIZE = 2048.
Proof. reflexivity. Qed.

Lemma client_read_segment (cl : WiFiClient) (seg : list ascii) (rest : list (list ascii)) :
  cl_inbox cl = seg :: rest →
  Z.of_nat (length seg) ≤ DEFAULT_BUFFER_SIZE →
  client_read cl DEFAULT_BUFFER_SIZE = (Z.of_nat (length seg), seg, after_read cl rest).
Proof.
  intros Hin Hlen. unfold client_read, after_read. rewrite Hin.
  rewrite take_ge, drop_ge by lia. reflexivity.
Qed.

Lemma memcpy_at_start (seg : list ascii) :
  Z.of_nat (length seg) ≤ DEFAULT_BUFFER_SIZE →
  memcpy_at (replicate (Z.to_nat DEFAULT_BUFFER_SIZE) NUL) 0 seg = buffer_after seg.
Proof.
  intros Hlen. unfold memcpy_at, buffer_after.
  change (Z.to_nat 0) with 0%nat. rewrite take_0, drop_replicate. reflexivity.
Qed.

Section Receiving.
Context `{Collaborators}.

(** A loop state whose [parse_result] is not 0 ends the loop, whatever the
    parser reported. *)
Lemma read_loop_leaves (s : HttpServer) (fuel : nat) (st : loop_state) :
  ls_parse_result st ≠ 0 → 0 ≤ ls_parse_result st →
  read_loop s fuel st = LoopLeft st.
Proof.
  intros Hne Hpos.
  assert (E : (ls_parse_result st <=? 0) = false) by (apply Z.leb_gt; lia).
  destruct fuel; cbn [read_loop]; rewrite E; reflexivity.
Qed.

(** The loop body runs once: entered with [parse_result] 0, it either leaves
    the function, or breaks, or continues with the converted -2 in
    [parse_result], for which the loop condition is false. The iteration
    bound of the model is therefore never reached. *)
Lemma read_loop_single_pass (s : HttpServer) (st : loop_state) (fuel : nat) :
  ls_parse_result st = 0 →
  read_loop s (S fuel) st = read_loop s 1 st ∧ read_loop s (S fuel) st ≠ LoopFuel.
Proof.
  intros E. cbn [read_loop]. rewrite E. change (negb (0 <=? 0)) with false. cbv iota.
  destruct (maxRequestSize s <=? ls_prevbuflen st); [split; [reflexivity | discriminate]|].
  destruct (client_read (ls_client st) DEFAULT_BUFFER_SIZE) as [[read_result tmpBuf] cl1].
  destruct (read_result =? -1); [split; [reflexivity | discriminate]|].
  destruct (read_result =? 0); [split; [reflexivity | discriminate]|].
  destruct (maxRequestSize s <? size_add (to_size_t read_result) (ls_prevbuflen st));
    [split; [reflexivity | discriminate]|].
  match goal with |- context [to_size_t (phr_ret ?o)] => set (out := o) end.
  destruct (to_size_t (phr_ret out) =? to_size_t (-1));
    [split; [reflexivity | discriminate]|].
  destruct (to_size_t (phr_ret out) =? to_size_t (-2)) eqn:E2;
    [|split; [reflexivity | discriminate]].
  apply Z.eqb_eq in E2.
  rewrite (read_loop_leaves s fuel)
    by (cbn [ls_parse_result]; rewrite E2, minus_two_size_t; lia).
  cbn [ls_parse_result]. rewrite E2, minus_two_size_t.
  change (negb (4294967294 <=? 0)) with true. cbv iota.
  split; [reflexivity | discriminate].
Qed.

Lemma receive_within_bound (s : HttpServer) (cl : WiFiClient) :
  read_loop s (loop_bound cl) (loop_init cl) ≠ LoopFuel.
Proof. apply read_loop_single_pass. reflexivity. Qed.

(** The first (and, as [read_loop_single_pass] shows, only) pass through the loop
    body, for a first segment that fits the buffer and the size limit. *)
Lemma read_loop_first_read (s : HttpServer) (cl : WiFiClient) (seg : list ascii)
    (rest : list (list ascii)) (fuel : nat) :
  cl_inbox cl = seg :: rest → seg ≠ [] →
  Z.of_nat (length seg) ≤ DEFAULT_BUFFER_SIZE →
  0 < maxRequestSize s → Z.of_nat (length seg) ≤ maxRequestSize s →
  read_loop s (S fuel) (loop_init cl) =
    let out := phr_parse_request seg 0 in
    let parse_result := to_size_t (phr_ret out) in
    let n := Z.of_nat (length seg) in
    if parse_result =? to_size_t (-1) then
      LoopReturnFalse (respondToClient (after_read cl rest)
                         (generateErrorResponse s 400 "Bad Request"))
    else if parse_result =? to_size_t (-2) then
      LoopLeft (mkLoop parse_result n n (buffer_after seg) out (after_read cl rest))
    else
      LoopLeft (mkLoop parse_result n 0 (buffer_after seg) out (after_read cl rest)).
Proof.
  intros Hin Hne Hfit Hmax0 Hmax.
  assert (Hn : 0 < Z.of_nat (length seg)).
  { destruct seg; [done | cbn [length]; lia]. }
  pose proof DEFAULT_BUFFER_SIZE_eq as HB. pose proof SIZE_MODULUS_eq as HM.
  cbn [read_loop loop_init ls_parse_result ls_prevbuflen ls_client ls_buf].
  change (negb (0 <=? 0)) with false. cbv iota.
  replace (maxRequestSize s <=? 0) with false by (symmetry; apply Z.leb_gt; lia).
  rewrite (client_read_segment cl seg rest Hin Hfit).
  replace (Z.of_nat (length seg) =? -1) with false by (symmetry; apply Z.eqb_neq; lia).
  replace (Z.of_nat (length seg) =? 0) with false by (symmetry; apply Z.eqb_neq; lia).
  rewrite (to_size_t_small (Z.of_nat (length seg))) by lia.
  unfold size_add. rewrite !Z.add_0_r, Z.add_0_l.
  rewrite (to_size_t_small (Z.of_nat (length seg))) by lia.
  replace (maxRequestSize s <? Z.of_nat (length seg)) with false
    by (symmetry; apply Z.ltb_ge; lia).
  rewrite length_replicate.
  replace (Z.of_nat (Z.to_nat DEFAULT_BUFFER_SIZE) <? Z.of_nat (length seg)) with false
    by (symmetry; apply Z.ltb_ge; lia).
  rewrite (memcpy_at_start seg Hfit).
  assert (Htake : take (Z.to_nat (Z.of_nat (length seg))) (buffer_after seg) = seg).
  { rewrite Nat2Z.id. unfold buffer_after. apply take_app_length. }
  rewrite Htake. cbv zeta.
  destruct (to_size_t (phr_ret (phr_parse_request seg 0)) =? to_size_t (-1)); [reflexivity|].
  destruct (to_size_t (phr_ret (phr_parse_request seg 0)) =? to_size_t (-2)) eqn:E2;
    [|reflexivity].
  apply read_loop_leaves; cbn [ls_parse_result];
    apply Z.eqb_eq in E2; rewrite E2, minus_two_size_t; lia.
Qed.

(** A first read that alone exceeds the limit is answered with 413 and the
    function returns [false]. A read returns at most [DEFAULT_BUFFER_SIZE]
    bytes, so this needs a limit below the buffer size. *)
Lemma receive_too_large (s : HttpServer) (cl : WiFiClient) (seg : list ascii)
    (rest : list (list ascii)) :
  cl_inbox cl = seg :: rest →
  Z.of_nat (length seg) ≤ DEFAULT_BUFFER_SIZE →
  0 < maxRequestSize s < Z.of_nat (length seg) →
  receive s cl
    = RxReturn false (respondToClient (after_read cl rest)
                        (generateErrorResponse s 413 "Payload Too Large")).
Proof.
  intros Hin Hfit Hmax.
  pose proof DEFAULT_BUFFER_SIZE_eq as HB. pose proof SIZE_MODULUS_eq as HM.
  unfold receive, loop_bound.
  cbn [read_loop loop_init ls_parse_result ls_prevbuflen ls_client ls_buf].
  change (negb (0 <=? 0)) with false. cbv iota.
  replace (maxRequestSize s <=? 0) with false by (symmetry; apply Z.leb_gt; lia).
  rewrite (client_read_segment cl seg rest Hin Hfit).
  replace (Z.of_nat (length seg) =? -1) with false by (symmetry; apply Z.eqb_neq; lia).
  replace (Z.of_nat (length seg) =? 0) with false by (symmetry; apply Z.eqb_neq; lia).
  rewrite (to_size_t_small (Z.of_nat (length seg))) by lia.
  unfold size_add. rewrite Z.add_0_r.
  rewrite (to_size_t_small (Z.of_nat (length seg))) by lia.
  replace (maxRequestSize s <? Z.of_nat (length seg)) with true
    by (symmetry; apply Z.ltb_lt; lia).
  reflexivity.
Qed.

(** When the parser reports a header-end offset within the bytes of the
    first read, the request is built at once and later segments stay
    unread. *)
Lemma receive_complete (s : HttpServer) (cl : WiFiClient) (seg : list ascii)
    (rest : list (list ascii)) :
  cl_inbox cl = seg :: rest → seg ≠ [] →
  Z.of_nat (length seg) ≤ DEFAULT_BUFFER_SIZE →
  0 < maxRequestSize s → Z.of_nat (length seg) ≤ maxRequestSize s →
  0 < phr_ret (phr_parse_request seg 0) ≤ Z.of_nat (length seg) →
  receive s cl =
    match extract_body (buffer_after seg) (phr_ret (phr_parse_request seg 0))
                       (Z.of_nat (length seg)) with
    | None => RxOverread
    | Some b => RxRequest (build_request (phr_parse_request seg 0) b) (after_read cl rest)
    end.
Proof.
  intros Hin Hne Hfit Hmax0 Hmax Hret.
  pose proof DEFAULT_BUFFER_SIZE_eq as HB. pose proof SIZE_MODULUS_eq as HM.
  unfold receive, loop_bound.
  rewrite (read_loop_first_read s cl seg rest _ Hin Hne Hfit Hmax0 Hmax). cbv zeta.
  rewrite (to_size_t_small (phr_ret (phr_parse_request seg 0))) by lia.
  rewrite minus_one_size_t, minus_two_size_t.
  replace (phr_ret (phr_parse_request seg 0) =? 4294967295) with false
    by (symmetry; apply Z.eqb_neq; lia).
  replace (phr_ret (phr_parse_request seg 0) =? 4294967294) with false
    by (symmetry; apply Z.eqb_neq; lia).
  cbn [ls_parse_result ls_buf ls_buflen ls_out ls_client].
  replace (phr_ret (phr_parse_request seg 0) <=? 0) with false
    by (symmetry; apply Z.leb_gt; lia).
  reflexivity.
Qed.

End Receiving.

(** ** The body scan *)

Lemma c_string_padded (l : list ascii) (pad : nat) :
  c_string (l ++ replicate (S pad) NUL) = Some (bytes_upto_nul l).
Proof.
  induction l as [|c l IH]; [reflexivity|].
  cbn [app c_string bytes_upto_nul]. case_bool_decide; [reflexivity|].
  rewrite IH. reflexivity.
Qed.

Lemma c_string_at_nul (pre post : list ascii) :
  NUL ∉ pre → c_string (pre ++ NUL :: post) = Some (string_of_list_ascii pre).
Proof.
  induction pre as [|c pre IH]; intros Hno; [reflexivity|].
  cbn [app c_string string_of_list_ascii]. case_bool_decide as Hc.
  - exfalso. apply Hno. rewrite Hc. left.
  - rewrite IH; [reflexivity|]. intros Hin. apply Hno. right. exact Hin.
Qed.

Lemma c_string_unterminated (l : list ascii) : NUL ∉ l → c_string l = None.
Proof.
  induction l as [|c l IH]; intros Hno; [reflexivity|].
  cbn [c_string]. case_bool_decide as Hc.
  - exfalso. apply Hno. rewrite Hc. left.
  - rewrite IH; [reflexivity|]. intros Hin. apply Hno. right. exact Hin.
Qed.

Lemma bytes_upto_nul_at_nul (pre post : list ascii) :
  NUL ∉ pre → bytes_upto_nul (pre ++ NUL :: post) = string_of_list_ascii pre.
Proof.
  induction pre as [|c pre IH]; intros Hno; [reflexivity|].
  cbn [app bytes_upto_nul string_of_list_ascii]. case_bool_decide as Hc.
  - exfalso. apply Hno. rewrite Hc. left.
  - rewrite IH; [reflexivity|]. intros Hin. apply Hno. right. exact Hin.
Qed.

(** With room left in the vector, the scan stops at the latest at the first
    zero after the received bytes. *)
Lemma extract_body_terminated (seg : list ascii) (k : Z) :
  Z.of_nat (length seg) < DEFAULT_BUFFER_SIZE →
  0 ≤ k ≤ Z.of_nat (length seg) →
  extract_body (buffer_after seg) k (Z.of_nat (length seg))
    = Some (bytes_upto_nul (drop (Z.to_nat k) seg)).
Proof.
  intros Hroom Hk. pose proof DEFAULT_BUFFER_SIZE_eq as HB.
  pose proof SIZE_MODULUS_eq as HM. unfold extract_body.
  destruct (k <? Z.of_nat (length seg)) eqn:Elt.
  - apply Z.ltb_lt in Elt. unfold size_sub.
    rewrite to_size_t_small by lia.
    replace (0 <? Z.of_nat (length seg) - k) with true by (symmetry; apply Z.ltb_lt; lia).
    unfold buffer_after. rewrite drop_app_le by lia.
    destruct (Z.to_nat DEFAULT_BUFFER_SIZE - length seg)%nat as [|pad] eqn:Epad; [lia|].
    apply c_string_padded.
  - apply Z.ltb_ge in Elt. rewrite drop_ge by lia. reflexivity.
Qed.

(** ** Independence of the body *)

Section BodyIndependence.
Context `{Collaborators}.

Lemma parse_query_pair_with_body (b : string) (req : HttpRequest) (pair : string) :
  parse_query_pair (with_body b req) pair = with_body b (parse_query_pair req pair).
Proof.
  unfold parse_query_pair. destruct (split pair "=") as [|k [|v [|]]]; reflexivity.
Qed.

Lemma foldl_with_body {A : Type} (f : HttpRequest → A → HttpRequest) (b : string) :
  (∀ req a, f (with_body b req) a = with_body b (f req a)) →
  ∀ (l : list A) (req : HttpRequest),
    foldl f (with_body b req) l = with_body b (foldl f req l).
Proof.
  intros Hf l. induction l as [|a l IH]; intros req; [reflexivity|].
  cbn [foldl]. rewrite Hf. apply IH.
Qed.

(** The body handed to [build_request] only ends up in the [body] field. *)
Lemma build_request_with_body (out : phr_result) (b b' : string) :
  build_request out b = with_body b (build_request out b').
Proof.
  unfold build_request.
  set (req0 := mkRequest (string_of_list_ascii (phr_method out)) "/" b' ∅ ∅ ∅ ∅).
  change (mkRequest (string_of_list_ascii (phr_method out)) "/" b ∅ ∅ ∅ ∅)
    with (with_body b req0).
  destruct (find_query (string_of_list_ascii (phr_path out))) as [[p q]|].
  - change (set_path (upto_nul p) (with_body b req0))
      with (with_body b (set_path (upto_nul p) req0)).
    unfold parse_query.
    rewrite (foldl_with_body parse_query_pair b (parse_query_pair_with_body b)).
    set (req1 := foldl parse_query_pair (set_path (upto_nul p) req0) (split q "&")).
    change (set_path (strip_trailing_slash (req_path (with_body b req1))) (with_body b req1))
      with (with_body b (set_path (strip_trailing_slash (req_path req1)) req1)).
    apply foldl_with_body. reflexivity.
  - set (req1 := set_path (string_of_list_ascii (phr_path out)) req0).
    change (set_path (string_of_list_ascii (phr_path out)) (with_body b req0))
      with (with_body b req1).
    change (set_path (strip_trailing_slash (req_path (with_body b req1))) (with_body b req1))
      with (with_body b (set_path (strip_trailing_slash (req_path req1)) req1)).
    apply foldl_with_body. reflexivity.
Qed.

End BodyIndependence.

(** * The claims *)

(** ** Middleware short-circuit *)

(** A stage that returns [false] ends [applyMiddlewares]: no later stage is
    called. *)
Lemma applyMiddlewares_from_halt (i : nat) (mw : MiddlewareHandlerBool)
    (rest : list MiddlewareHandlerBool) (req req' : HttpRequest)
    (response response' : HubHttpResponse) :
  mw req response = (false, req', response') →
  applyMiddlewares_from i (mw :: rest) req response = (req', response', [EvMiddleware i]).
Proof. intros E. cbn [applyMiddlewares_from]. rewrite E. reflexivity. Qed.

(** After [applyMiddlewares], [serve] goes on to the router whatever the
    stages returned: [applyMiddlewares] has no result that could stop it. *)
Lemma serve_always_dispatches (s : HttpServer) (clock : Z) (conn : HttpClientConnection)
    (cl : WiFiClient) (req : HttpRequest) (r : hc_result) :
  (corsEnabled s && bool_decide (req_method req = "OPTIONS")) = false →
  serve s clock conn cl req = Returned r →
  let after := applyMiddlewares s req HubHttpResponse_new in
  ∃ t, hc_trace r = after.2 ++ (dispatch s after.1.1 after.1.2).2 ++ t.
Proof.
  intros Hpre Hserve. unfold serve in Hserve. rewrite Hpre in Hserve. cbv zeta.
  destruct (applyMiddlewares s req HubHttpResponse_new) as [[req1 response1] t1].
  cbn [fst snd].
  destruct (dispatch s req1 response1) as [[[choice req2] [response2|]] t2];
    [|discriminate].
  destruct (compose s req2 response2) as [[req3 response3] t3].
  injection Hserve as <-. cbn [hc_trace snd]. eauto.
Qed.

(** C1 (the code departs from the claim). Two middlewares are registered, the
    first continues, the second sets status 401 and halts; a handler is
    registered for the requested path. The later stages are indeed skipped
    and the halting stage leaves a 401, but the router still runs, the route
    handler is invoked, and the response that is sent is the handler's 200,
    not the 401 of the halting stage. *)
Theorem C1_halt_does_not_stop_routing :
  let req := mkRequest "GET" "/secret" "" ∅ ∅ ∅ ∅ in
  let run := @handleConnection model auth_server 100000 0 (fresh_connection [get_secret]) in
  status (applyMiddlewares auth_server req HubHttpResponse_new).1.2 = 401 ∧
  (hc_trace <$> returned run)
    = Some [EvMiddleware 0; EvMiddleware 1; EvMatchPattern 0; EvPatternHandler 0] ∧
  (statuses <$> returned run) = Some [200] ∧
  (map body ∘ sent <$> returned run) = Some ["secret data"].
Proof. vm_compute. repeat split. Qed.

(** ** The request size limit *)

(** C2 (the code departs from the claim). With [maxRequestSize] 2048 a client
    sends a POST whose body alone is 3000 bytes. The first read returns the
    first TCP segment, in which the header block is complete; the request is
    served from it with status 200 and the connection is kept. No 413 is
    sent. *)
Theorem C2_oversized_request_is_served :
  let run := @handleConnection model small_server 100000 0
                               (fresh_connection big_post_segments) in
  maxRequestSize small_server = 2048 ∧
  length (concat big_post_segments) = 3041%nat ∧
  (statuses <$> returned run) = Some [200] ∧
  (hc_keep <$> returned run) = Some true.
Proof. vm_compute. repeat split. Qed.

(** ** Connection lifetime *)

(** Whenever [serve] returns, it returns [true]: the [keepAlive] setting
    only selects the value of the [Connection] header. *)
Lemma serve_keeps_connection (s : HttpServer) (clock : Z) (conn : HttpClientConnection)
    (cl : WiFiClient) (req : HttpRequest) (r : hc_result) :
  serve s clock conn cl req = Returned r → hc_keep r = true.
Proof.
  unfold serve. destruct (corsEnabled s && bool_decide (req_method req = "OPTIONS")).
  - intros E. injection E as <-. reflexivity.
  - destruct (applyMiddlewares s req HubHttpResponse_new) as [[req1 response1] t1].
    destruct (dispatch s req1 response1) as [[[choice req2] [response2|]] t2];
      [|discriminate].
    destruct (compose s req2 response2) as [[req3 response3] t3].
    intros E. injection E as <-. reflexivity.
Qed.

(** C6 (the code departs from the claim). Keep-alive is off and a request is
    handled on a connection: the response carries [Connection: close], yet
    [handleConnection] returns [true] and after the tick the connection is
    still in the pool; a second request that arrives on it is answered by
    the next tick. *)
Theorem C6_connection_stays_after_response :
  let after := @tick model one_shot_server 100000 0 None in
  let later := tick_again 100000 (@tick model two_shot_server 100000 0 None) in
  keepAlive one_shot_server = false ∧
  length (connections one_shot_server) = 1%nat ∧
  (length <$> pool after) = Some 1%nat ∧
  (connection_headers <$> pool after) = Some [[Some "close"]] ∧
  (connection_headers <$> pool later) = Some [[Some "close"; Some "close"]].
Proof. vm_compute. repeat split. Qed.

(** [isActive] compares the idle time with the constant of five minutes;
    the server's configuration is not among its inputs. *)
Lemma isActive_fixed_timeout (clock : Z) (conn : HttpClientConnection) :
  isActive clock conn = true ↔
  (millis clock - lastActivityMillis conn) mod SIZE_MODULUS < 300000.
Proof. unfold isActive, size_sub, to_size_t, CLIENT_INACTIVITY_TIMEOUT_MS. apply Z.ltb_lt. Qed.

(** C7 (the code departs from the claim). The inactivity timeout is set to
    1000 ms, by the setter or through the configuration passed to [begin]. A
    connection that has been silent for 5000 ms is still in the pool after
    the next tick; it is only removed once it has been silent for 300000
    ms. *)
Theorem C7_configured_timeout_is_ignored :
  connectionInactivityTimeout impatient_server = 1000 ∧
  connectionInactivityTimeout impatient_config_server = 1000 ∧
  (length <$> pool (@tick model impatient_server 100000 5000 None)) = Some 1%nat ∧
  (length <$> pool (@tick model impatient_config_server 100000 5000 None)) = Some 1%nat ∧
  (length <$> pool (@tick model impatient_server 100000 299999 None)) = Some 1%nat ∧
  (length <$> pool (@tick model impatient_server 100000 300000 None)) = Some 0%nat.
Proof. vm_compute. repeat split. Qed.

(** ** Path parameters *)

(** C9 (the code departs from the claim). The pattern [/user/:id/edit] is
    scanned for the path [/user/42/view]: the segment counts agree, [:id]
    captures "42" into [params], and only then the literal [edit] differs
    from [view]. [matchPattern] returns [false] with [params["id"]] set, and
    the request reaches the not-found fallback with that parameter although
    no route matched. *)
Theorem C9_failed_scan_leaves_params :
  req_params view_request = ∅ ∧
  (matchPattern edit_route "GET" "/user/42/view" view_request).1 = false ∧
  req_params (matchPattern edit_route "GET" "/user/42/view" view_request).2 !! "id"
    = Some "42" ∧
  (dispatch edit_server view_request HubHttpResponse_new).1.1.1 = NotFound ∧
  req_params (dispatch edit_server view_request HubHttpResponse_new).1.1.2 !! "id"
    = Some "42".
Proof. vm_compute. repeat split. Qed.

(** ** The request body *)

(** C3 (counterexample). The request advertises [Content-Length: 5]; the
    first read delivers the header block and the two bytes "he", the bytes
    "llo" arrive later. The request is built with the body "he" and "llo"
    is left unread in the socket. *)
Lemma C3_counterexample :
  let o := @receive model HttpServer_new hello_split_in_body in
  ((λ req, getHeader req "Content-Length" "") <$> rx_request o) = Some "5" ∧
  (req_body <$> rx_request o) = Some "he" ∧
  (cl_inbox <$> rx_client o) = Some [bytes "llo"].
Proof. vm_compute. repeat split. Qed.

(** C3 (as amended). When the parser finds the header block complete in the
    bytes of the first read, and that read leaves room in the buffer and is
    within the size limit, no further byte is read in this cycle: the body of
    the request is what followed the header-end offset in that read, up to
    the first NUL, whatever headers (a [Content-Length] among them) the
    parser returned; the later segments stay in the socket. *)
Theorem C3_body_is_rest_of_first_read `{Collaborators} (s : HttpServer) (cl : WiFiClient)
    (seg : list ascii) (rest : list (list ascii)) :
  cl_inbox cl = seg :: rest → seg ≠ [] →
  Z.of_nat (length seg) < DEFAULT_BUFFER_SIZE →
  0 < maxRequestSize s → Z.of_nat (length seg) ≤ maxRequestSize s →
  0 < phr_ret (phr_parse_request seg 0) ≤ Z.of_nat (length seg) →
  ∃ (req : HttpRequest) (cl' : WiFiClient),
    receive s cl = RxRequest req cl' ∧
    req_body req
      = bytes_upto_nul (drop (Z.to_nat (phr_ret (phr_parse_request seg 0))) seg) ∧
    cl_inbox cl' = rest ∧ cl_outbox cl' = cl_outbox cl.
Proof.
  intros Hin Hne Hroom Hmax0 Hmax Hret.
  rewrite (receive_complete s cl seg rest) by (try assumption; lia).
  rewrite extract_body_terminated by (try assumption; lia).
  eexists _, _. split_and!; [reflexivity | | reflexivity | reflexivity].
  apply build_request_fields.
Qed.

Lemma C3_body_is_rest_of_first_read_witness :
  ∃ (req : HttpRequest) (cl' : WiFiClient),
    @receive model HttpServer_new hello_split_in_body = RxRequest req cl' ∧
    req_body req = "he" ∧
    cl_inbox cl' = [bytes "llo"] ∧ cl_outbox cl' = [].
Proof.
  apply (@C3_body_is_rest_of_first_read model HttpServer_new hello_split_in_body
           (bytes (post_hello_head +:+ "he")) [bytes "llo"]).
  - reflexivity.
  - discriminate.
  - vm_compute. reflexivity.
  - vm_compute. reflexivity.
  - vm_compute. discriminate.
  - vm_compute. split; [reflexivity | discriminate].
Defined.

(** C4 (counterexample). The same bytes, delivered in one read and split
    after the header block, give requests with different bodies. *)
Lemma C4_counterexample :
  concat (cl_inbox hello_single) = concat (cl_inbox hello_split_at_body) ∧
  Z.of_nat (length (concat (cl_inbox hello_single))) ≤ maxRequestSize HttpServer_new ∧
  (req_body <$> rx_request (@receive model HttpServer_new hello_single)) = Some "hello" ∧
  (req_body <$> rx_request (@receive model HttpServer_new hello_split_at_body)) = Some "" ∧
  rx_request (@receive model HttpServer_new hello_single)
    ≠ rx_request (@receive model HttpServer_new hello_split_at_body).
Proof.
  split_and!; [vm_compute; reflexivity | vm_compute; discriminate
               | vm_compute; reflexivity | vm_compute; reflexivity |].
  intros E. apply (f_equal (fmap req_body)) in E. vm_compute in E. discriminate.
Qed.

(** C4 (as amended). Take a request that fits one read with room to spare
    and whose header block is complete in its first fragment, the parser
    reporting the same for the fragment as for the whole. Delivered whole
    or in fragments, it yields requests with the same method, path, query,
    headers and path parameters. The bodies are each the rest of the first
    read: they agree only on what the first fragment carried. *)
Theorem C4_fragments_agree_up_to_body `{Collaborators} (s : HttpServer)
    (whole_cl split_cl : WiFiClient) (seg : list ascii) (rest : list (list ascii)) :
  cl_inbox split_cl = seg :: rest →
  cl_inbox whole_cl = [seg ++ concat rest] →
  seg ≠ [] →
  Z.of_nat (length (seg ++ concat rest)) < DEFAULT_BUFFER_SIZE →
  0 < maxRequestSize s → Z.of_nat (length (seg ++ concat rest)) ≤ maxRequestSize s →
  phr_parse_request (seg ++ concat rest) 0 = phr_parse_request seg 0 →
  0 < phr_ret (phr_parse_request seg 0) ≤ Z.of_nat (length seg) →
  ∃ (whole_req split_req : HttpRequest) (cl1 cl2 : WiFiClient),
    receive s whole_cl = RxRequest whole_req cl1 ∧
    receive s split_cl = RxRequest split_req cl2 ∧
    same_but_body whole_req split_req ∧
    req_body whole_req
      = bytes_upto_nul (drop (Z.to_nat (phr_ret (phr_parse_request seg 0)))
                             (seg ++ concat rest)) ∧
    req_body split_req
      = bytes_upto_nul (drop (Z.to_nat (phr_ret (phr_parse_request seg 0))) seg).
Proof.
  intros Hsplit Hwhole Hne Hroom Hmax0 Hmax Hsame Hret.
  rewrite length_app in Hroom, Hmax.
  assert (Hne' : seg ++ concat rest ≠ []) by (destruct seg; done).
  rewrite (receive_complete s whole_cl (seg ++ concat rest) [])
    by (rewrite ?Hsame, ?length_app; try assumption; lia).
  rewrite (receive_complete s split_cl seg rest) by (try assumption; lia).
  rewrite !extract_body_terminated by (rewrite ?Hsame, ?length_app; try assumption; lia).
  rewrite Hsame. eexists _, _, _, _.
  split_and!; [reflexivity | reflexivity | | apply build_request_fields
               | apply build_request_fields].
  rewrite (build_request_with_body _ _
             (bytes_upto_nul (drop (Z.to_nat (phr_ret (phr_parse_request seg 0))) seg))).
  repeat split.
Qed.

Lemma C4_fragments_agree_up_to_body_witness :
  ∃ (whole_req split_req : HttpRequest) (cl1 cl2 : WiFiClient),
    @receive model HttpServer_new hello_single = RxRequest whole_req cl1 ∧
    @receive model HttpServer_new hello_split_in_body = RxRequest split_req cl2 ∧
    same_but_body whole_req split_req ∧
    req_body whole_req = "hello" ∧
    req_body split_req = "he".
Proof.
  apply (@C4_fragments_agree_up_to_body model HttpServer_new hello_single
           hello_split_in_body (bytes (post_hello_head +:+ "he")) [bytes "llo"]).
  - reflexivity.
  - reflexivity.
  - discriminate.
  - vm_compute. reflexivity.
  - vm_compute. reflexivity.
  - vm_compute. discriminate.
  - vm_compute. reflexivity.
  - vm_compute. split; [reflexivity | discriminate].
Defined.

(** C10. The body is read as a C string from the header-end offset. A zero
    byte among the received body bytes ends the body there, so that the
    bytes behind it are lost; the byte count [buflen] only decides whether
    the scan is made, not where it ends: when the received bytes fill the
    vector and hold no zero behind the offset, the scan leaves the buffer.
    The earlier [handleClient] extracts the body in the same way. *)
Theorem C10_body_ends_at_first_nul `{Collaborators} :
  (∀ (s : HttpServer) (cl : WiFiClient) (seg : list ascii) (rest : list (list ascii))
     (pre post : list ascii),
      cl_inbox cl = seg :: rest →
      Z.of_nat (length seg) ≤ DEFAULT_BUFFER_SIZE →
      0 < maxRequestSize s → Z.of_nat (length seg) ≤ maxRequestSize s →
      0 < phr_ret (phr_parse_request seg 0) →
      drop (Z.to_nat (phr_ret (phr_parse_request seg 0))) seg = pre ++ NUL :: post →
      NUL ∉ pre →
      ∃ (req : HttpRequest) (cl' : WiFiClient),
        receive s cl = RxRequest req cl' ∧ req_body req = string_of_list_ascii pre) ∧
  (∀ (s : HttpServer) (cl : WiFiClient) (seg : list ascii) (rest : list (list ascii)),
      cl_inbox cl = seg :: rest →
      Z.of_nat (length seg) = DEFAULT_BUFFER_SIZE →
      Z.of_nat (length seg) ≤ maxRequestSize s →
      0 < phr_ret (phr_parse_request seg 0) < Z.of_nat (length seg) →
      NUL ∉ drop (Z.to_nat (phr_ret (phr_parse_request seg 0))) seg →
      receive s cl = RxOverread) ∧
  (∀ (buf pre post : list ascii) (parse_result buflen : Z),
      0 ≤ parse_result < buflen →
      drop (Z.to_nat parse_result) buf = pre ++ NUL :: post → NUL ∉ pre →
      extract_body_handleClient buf parse_result buflen = Some (string_of_list_ascii pre)) ∧
  (∀ (buf : list ascii) (parse_result buflen : Z),
      0 ≤ parse_result < buflen →
      NUL ∉ drop (Z.to_nat parse_result) buf →
      extract_body_handleClient buf parse_result buflen = None).
Proof.
  pose proof DEFAULT_BUFFER_SIZE_eq as HB. pose proof SIZE_MODULUS_eq as HM.
  split_and!.
  - intros s cl seg rest pre post Hin Hfit Hmax0 Hmax Hret Hdrop Hno.
    assert (Hlt : (Z.to_nat (phr_ret (phr_parse_request seg 0)) < length seg)%nat).
    { destruct (decide (Z.to_nat (phr_ret (phr_parse_request seg 0)) < length seg)%nat)
        as [|Hge]; [assumption|].
      rewrite drop_ge in Hdrop by lia. destruct pre; discriminate. }
    assert (Hne : seg ≠ []) by (destruct seg; [cbn in Hlt; lia | done]).
    rewrite (receive_complete s cl seg rest) by (try assumption; lia).
    unfold extract_body.
    replace (phr_ret (phr_parse_request seg 0) <? Z.of_nat (length seg)) with true
      by (symmetry; apply Z.ltb_lt; lia).
    unfold size_sub. rewrite to_size_t_small by lia.
    replace (0 <? Z.of_nat (length seg) - phr_ret (phr_parse_request seg 0)) with true
      by (symmetry; apply Z.ltb_lt; lia).
    unfold buffer_after. rewrite drop_app_le by lia.
    rewrite Hdrop, <- app_assoc. cbn [app]. rewrite c_string_at_nul by assumption.
    eexists _, _. split; [reflexivity | apply build_request_fields].
  - intros s cl seg rest Hin Hfull Hmax Hret Hno.
    assert (Hne : seg ≠ []) by (destruct seg; [cbn in Hret; lia | done]).
    rewrite (receive_complete s cl seg rest) by (try assumption; lia).
    unfold extract_body.
    replace (phr_ret (phr_parse_request seg 0) <? Z.of_nat (length seg)) with true
      by (symmetry; apply Z.ltb_lt; lia).
    unfold size_sub. rewrite to_size_t_small by lia.
    replace (0 <? Z.of_nat (length seg) - phr_ret (phr_parse_request seg 0)) with true
      by (symmetry; apply Z.ltb_lt; lia).
    unfold buffer_after.
    replace (Z.to_nat DEFAULT_BUFFER_SIZE - length seg)%nat with 0%nat by lia.
    cbn [replicate]. rewrite app_nil_r, c_string_unterminated by assumption.
    reflexivity.
  - intros buf pre post k n Hk Hdrop Hno. unfold extract_body_handleClient.
    replace (k <? n) with true by (symmetry; apply Z.ltb_lt; lia).
    rewrite Hdrop. apply c_string_at_nul, Hno.
  - intros buf k n Hk Hno. unfold extract_body_handleClient.
    replace (k <? n) with true by (symmetry; apply Z.ltb_lt; lia).
    apply c_string_unterminated, Hno.
Qed.

Lemma C10_body_ends_at_first_nul_witness :
  (∃ (req : HttpRequest) (cl' : WiFiClient),
      @receive model HttpServer_new (socket [binary_post]) = RxRequest req cl' ∧
      req_body req = "ab") ∧
  @receive model HttpServer_new (socket [full_buffer_post]) = RxOverread.
Proof.
  destruct (@C10_body_ends_at_first_nul model) as (Hcut & Hover & _).
  split.
  - apply (Hcut HttpServer_new (socket [binary_post]) binary_post [] (bytes "ab") (bytes "cd")).
    + reflexivity.
    + vm_compute. discriminate.
    + vm_compute. reflexivity.
    + vm_compute. discriminate.
    + vm_compute. reflexivity.
    + vm_compute. reflexivity.
    + intros Hin. vm_compute in Hin. repeat (apply elem_of_cons in Hin as [Hin|Hin];
        [discriminate|]). apply elem_of_nil in Hin. exact Hin.
  - apply (Hover HttpServer_new (socket [full_buffer_post]) full_buffer_post []).
    + reflexivity.
    + vm_compute. reflexivity.
    + vm_compute. discriminate.
    + vm_compute. split; reflexivity.
    + apply (bool_decide_unpack (NUL ∉
               drop (Z.to_nat (phr_ret (phr_parse_request_model full_buffer_post 0)))
                    full_buffer_post)).
      vm_compute. exact I.
Defined.

(** ** CORS preflight *)

(** C8. When CORS is enabled and the request that was built has the method
    OPTIONS, [handleConnection] answers at once: the one response sent has
    status 204, an empty body and the four CORS headers; no middleware, no
    router lookup and no handler is called. *)
Theorem C8_cors_preflight `{Collaborators} (s : HttpServer) (freeRam clock : Z)
    (conn : HttpClientConnection) (req : HttpRequest) (cl' : WiFiClient) :
  corsEnabled s = true →
  hasEnoughMemory freeRam = true →
  available (client conn) ≠ 0 →
  receive s (client conn) = RxRequest req cl' →
  req_method req = "OPTIONS" →
  ∃ r : hc_result,
    handleConnection s freeRam clock conn = Returned r ∧
    hc_trace r = [] ∧
    sent r = cl_outbox cl' ++ [preflight_response s] ∧
    status (preflight_response s) = 204 ∧
    body (preflight_response s) = "" ∧
    headers (preflight_response s) !! "Access-Control-Allow-Origin" = Some (corsOrigin s) ∧
    headers (preflight_response s) !! "Access-Control-Allow-Methods" = Some (corsMethods s) ∧
    headers (preflight_response s) !! "Access-Control-Allow-Headers" = Some (corsHeaders s) ∧
    headers (preflight_response s) !! "Access-Control-Max-Age" = Some "86400".
Proof.
  intros Hcors Hmem Havail Hrx Hmethod.
  unfold handleConnection. rewrite Hmem. cbn [negb].
  replace (available (client conn) =? 0) with false by (symmetry; apply Z.eqb_neq; exact Havail).
  rewrite Hrx. unfold serve. rewrite Hcors, Hmethod. cbn [andb].
  rewrite bool_decide_eq_true_2 by reflexivity.
  eexists. split; [reflexivity|].
  split; [reflexivity|].
  split.
  { unfold sent, applyCORS. rewrite Hcors. reflexivity. }
  unfold preflight_response. cbn [status body headers].
  split_and!; try reflexivity; by simplify_map_eq.
Qed.

Lemma C8_cors_preflight_witness :
  ∃ r : hc_result,
    @handleConnection model cors_server 100000 0 (fresh_connection [get_options]) = Returned r ∧
    hc_trace r = [] ∧
    sent r = [preflight_response cors_server] ∧
    status (preflight_response cors_server) = 204 ∧
    body (preflight_response cors_server) = "" ∧
    headers (preflight_response cors_server) !! "Access-Control-Allow-Origin" = Some "*" ∧
    headers (preflight_response cors_server) !! "Access-Control-Allow-Methods"
      = Some "GET, POST" ∧
    headers (preflight_response cors_server) !! "Access-Control-Allow-Headers"
      = Some "Content-Type" ∧
    headers (preflight_response cors_server) !! "Access-Control-Max-Age" = Some "86400".
Proof.
  apply (@C8_cors_preflight model cors_server 100000 0 (fresh_connection [get_options])
           options_request (socket [])).
  - reflexivity.
  - reflexivity.
  - vm_compute. discriminate.
  - vm_compute. reflexivity.
  - reflexivity.
Defined.

(** ** Route resolution *)

(** C5. The request path is the request target up to the first [?] with one
    trailing slash stripped unless it is the root. A pattern route matches
    exactly when its method equals the request's up to case, it has as many
    segments as the path, and every literal segment equals the path segment
    at its position; a [:name] segment accepts any value and leaves it in
    [params[name]]. Patterns are tried in registration order and the first
    match wins; only when none matches is the exact-path table looked up,
    regardless of the method, then the built-ins [/] and [/log], then the
    not-found handler or the default 404. *)
Theorem C5_route_resolution_order `{Collaborators} :
  (∀ (out : phr_result) (b : string),
      req_path (build_request out b)
        = strip_trailing_slash (path_before_query (string_of_list_ascii (phr_path out)))) ∧
  strip_trailing_slash "/" = "/" ∧
  (∀ p : string, p ≠ "" → strip_trailing_slash (p +:+ "/") = p) ∧
  (∀ p : string, endsWith SLASH p = false → strip_trailing_slash p = p) ∧
  (∀ (rp : RoutePattern) (method path : string) (req : HttpRequest),
      (matchPattern rp method path req).1 = true ↔ route_matches rp method path) ∧
  (∀ (rp : RoutePattern) (method path : string) (req : HttpRequest)
     (i : nat) (patSeg actSeg : string),
      (matchPattern rp method path req).1 = true →
      rp_segments rp !! i = Some patSeg →
      split_segments path !! i = Some actSeg →
      startsWith COLON patSeg = true →
      (∀ (j : nat) (later : string),
          (i < j)%nat → rp_segments rp !! j = Some later → startsWith COLON later = true →
          substring1 later ≠ substring1 patSeg) →
      req_params (matchPattern rp method path req).2 !! substring1 patSeg = Some actSeg) ∧
  (∀ (s : HttpServer) (req : HttpRequest) (response : HubHttpResponse),
      resolves s (req_method req) (req_path req) (dispatch s req response).1.1.1 ∧
      produced_by s req response (dispatch s req response).1.1.1
                  (dispatch s req response).1.1.2 (dispatch s req response).1.2).
Proof.
  split_and!.
  - intros out b. apply build_request_fields.
  - apply strip_trailing_slash_root.
  - apply strip_trailing_slash_strips.
  - apply strip_trailing_slash_keeps.
  - apply matchPattern_true.
  - intros rp method path req i patSeg actSeg Hm Hp Ha Hs Hlast.
    rewrite matchPattern_params by exact Hm.
    apply (captures_lookup _ _ _ i); assumption.
  - apply dispatch_spec.
Qed.

Lemma C5_route_resolution_order_witness :
  resolves user_server "get" "/api/user/42" (ByPattern 0) ∧
  resolves user_server "POST" "/api/user/42" (ByExactPath "/api/user/42") ∧
  req_params (matchPattern (make_pattern "GET" "/api/user/:id" (ok_handler "pattern"))
                           "get" "/api/user/42" (user_request "get")).2 !! "id"
    = Some "42".
Proof.
  destruct (@C5_route_resolution_order model) as (_ & _ & _ & _ & _ & Hcap & Horder).
  split_and!.
  - exact (proj1 (Horder user_server (user_request "get") HubHttpResponse_new)).
  - exact (proj1 (Horder user_server (user_request "POST") HubHttpResponse_new)).
  - apply (Hcap _ "get" "/api/user/42" (user_request "get") 2%nat ":id" "42").
    + reflexivity.
    + reflexivity.
    + reflexivity.
    + reflexivity.
    + intros j later Hj Hl. vm_compute in Hl.
      destruct j as [|[|[|j]]]; try lia; discriminate.
Defined.

(** * Further properties of the server *)

(** ** One read per call *)

Lemma client_read_spec (cl : WiFiClient) (read_result : Z) (got : list ascii)
    (cl1 : WiFiClient) :
  client_read cl DEFAULT_BUFFER_SIZE = (read_result, got, cl1) →
  cl_connected cl1 = cl_connected cl ∧ cl_outbox cl1 = cl_outbox cl ∧
  pending cl = got ++ pending cl1 ∧
  ((read_result = -1 ∧ got = []) ∨
   (read_result = Z.of_nat (length got) ∧ Z.of_nat (length got) ≤ DEFAULT_BUFFER_SIZE)).
Proof.
  unfold client_read, pending. destruct (cl_inbox cl) as [|seg rest] eqn:Ein.
  - intros E. injection E as <- <- <-. rewrite Ein. split_and!; auto.
  - intros E. injection E as <- <- <-. cbn [cl_connected cl_outbox cl_inbox].
    split_and!; [reflexivity | reflexivity | | right].
    + cbn [concat]. rewrite <- (take_drop (Z.to_nat DEFAULT_BUFFER_SIZE) seg) at 1.
      rewrite <- app_assoc. f_equal.
      destruct (drop (Z.to_nat DEFAULT_BUFFER_SIZE) seg); reflexivity.
    + split; [reflexivity|]. rewrite length_take. pose proof DEFAULT_BUFFER_SIZE_eq. lia.
Qed.

Section SingleRead.
Context `{Collaborators}.

(** The read loop of [handleConnection] amounts to a single read and a
    single parse: whatever the socket holds and whatever the parser
    reports, [receive] ends as [receive_once] does. *)
Lemma receive_once_eq (s : HttpServer) (cl : WiFiClient) :
  receive s cl = receive_once s cl.
Proof.
  pose proof DEFAULT_BUFFER_SIZE_eq as HB. pose proof SIZE_MODULUS_eq as HM.
  unfold receive, receive_once, loop_bound.
  cbn [read_loop loop_init ls_parse_result ls_prevbuflen ls_client ls_buf].
  change (negb (0 <=? 0)) with false. cbv iota.
  destruct (maxRequestSize s <=? 0) eqn:Emax0; [reflexivity|].
  destruct (client_read cl DEFAULT_BUFFER_SIZE) as [[read_result got] cl1] eqn:Eread.
  apply client_read_spec in Eread as (_ & _ & _ & Hread).
  destruct (read_result =? -1) eqn:E1; [reflexivity|].
  destruct (read_result =? 0) eqn:E0; [reflexivity|].
  apply Z.eqb_neq in E1, E0.
  destruct Hread as [[-> _]|[-> Hlen]]; [done|].
  rewrite (to_size_t_small (Z.of_nat (length got))) by lia.
  unfold size_add. rewrite !Z.add_0_r, Z.add_0_l.
  rewrite (to_size_t_small (Z.of_nat (length got))) by lia.
  destruct (maxRequestSize s <? Z.of_nat (length got)); [reflexivity|].
  rewrite length_replicate.
  replace (Z.of_nat (Z.to_nat DEFAULT_BUFFER_SIZE) <? Z.of_nat (length got)) with false
    by (symmetry; apply Z.ltb_ge; lia).
  rewrite (memcpy_at_start got Hlen).
  assert (Htake : take (Z.to_nat (Z.of_nat (length got))) (buffer_after got) = got).
  { rewrite Nat2Z.id. unfold buffer_after. apply take_app_length. }
  rewrite Htake. cbv zeta.
  destruct (to_size_t (phr_ret (phr_parse_request got 0)) =? to_size_t (-1)); [reflexivity|].
  destruct (to_size_t (phr_ret (phr_parse_request got 0)) =? to_size_t (-2)) eqn:E2.
  - rewrite read_loop_leaves
      by (cbn [ls_parse_result]; apply Z.eqb_eq in E2; rewrite E2, minus_two_size_t; lia).
    reflexivity.
  - reflexivity.
Qed.

(** X1. The read loop of [handleConnection] amounts to a single read and a
    single parse: whatever the socket holds and whatever the parser
    reports, [receive] ends as [receive_once] does. *)
Theorem receive_is_single_read (s : HttpServer) (cl : WiFiClient) :
  receive s cl = receive_once s cl.
Proof. exact (receive_once_eq s cl). Qed.

End SingleRead.


Section ReceiveOutcomes.
Context `{Collaborators}.

(** What [receive] can have done to the socket: at most
    [DEFAULT_BUFFER_SIZE] bytes were taken from it and at most one response,
    a 413 or a 400, was sent. *)
Lemma receive_effects (s : HttpServer) (cl cl' : WiFiClient) :
  rx_client (receive s cl) = Some cl' →
  cl_connected cl' = cl_connected cl ∧
  (∃ consumed : list ascii,
      pending cl = consumed ++ pending cl' ∧
      Z.of_nat (length consumed) ≤ DEFAULT_BUFFER_SIZE) ∧
  (cl_outbox cl' = cl_outbox cl ∨
   cl_outbox cl' = cl_outbox cl ++ [generateErrorResponse s 400 "Bad Request"] ∨
   (cl_outbox cl' = cl_outbox cl ++ [generateErrorResponse s 413 "Payload Too Large"] ∧
    maxRequestSize s < DEFAULT_BUFFER_SIZE)).
Proof.
  pose proof DEFAULT_BUFFER_SIZE_eq as HB.
  rewrite receive_once_eq. unfold receive_once.
  destruct (maxRequestSize s <=? 0) eqn:Emax0.
  { apply Z.leb_le in Emax0. intros E. injection E as <-. cbn.
    split_and!; [reflexivity | exists []; split; [reflexivity | cbn; lia] |].
    right. right. split; [reflexivity | lia]. }
  destruct (client_read cl DEFAULT_BUFFER_SIZE) as [[read_result got] cl1] eqn:Eread.
  apply client_read_spec in Eread as (Hconn & Hout & Hpend & Hread).
  assert (Hgot : Z.of_nat (length got) ≤ DEFAULT_BUFFER_SIZE).
  { destruct Hread as [[_ ->]|[_ Hlen]]; [cbn; lia | exact Hlen]. }
  assert (Hplain : ∀ c, Some cl1 = Some c →
            cl_connected c = cl_connected cl ∧
            (∃ consumed : list ascii,
                pending cl = consumed ++ pending c ∧
                Z.of_nat (length consumed) ≤ DEFAULT_BUFFER_SIZE) ∧
            (cl_outbox c = cl_outbox cl ∨
             cl_outbox c = cl_outbox cl ++ [generateErrorResponse s 400 "Bad Request"] ∨
             (cl_outbox c = cl_outbox cl ++ [generateErrorResponse s 413 "Payload Too Large"] ∧
              maxRequestSize s < DEFAULT_BUFFER_SIZE))).
  { intros c E. injection E as <-. split_and!; [exact Hconn | eauto | auto]. }
  destruct (read_result =? -1); [apply Hplain|].
  destruct (read_result =? 0); [apply Hplain|].
  destruct (maxRequestSize s <? read_result) eqn:Ebig.
  { apply Z.ltb_lt in Ebig. intros E. injection E as <-.
    cbn [respondToClient cl_connected cl_outbox]. unfold pending. cbn [cl_inbox].
    split_and!; [exact Hconn | eauto |]. right. right. rewrite Hout.
    split; [reflexivity|]. destruct Hread as [[-> _]|[-> _]]; lia. }
  cbv zeta.
  destruct (to_size_t (phr_ret (phr_parse_request got 0)) =? to_size_t (-1)).
  { intros E. injection E as <-.
    cbn [respondToClient cl_connected cl_outbox]. unfold pending. cbn [cl_inbox].
    split_and!; [exact Hconn | eauto |]. right. left. rewrite Hout. reflexivity. }
  destruct (to_size_t (phr_ret (phr_parse_request got 0)) <=? 0); [apply Hplain|].
  destruct (extract_body _ _ _); [apply Hplain | discriminate].
Qed.

(** X2. Once the limit has been set through [setMaxRequestSize], no call of
    [handleConnection] answers 413: the setter keeps the limit at or above
    the size of a read, and only one read is made. Whatever arrives, the
    receiving half sends nothing or the 400 of a malformed request. *)
Theorem no_413_after_setMaxRequestSize (maxSize : Z) (s : HttpServer)
    (cl cl' : WiFiClient) :
  rx_client (receive (setMaxRequestSize maxSize s) cl) = Some cl' →
  DEFAULT_BUFFER_SIZE ≤ maxRequestSize (setMaxRequestSize maxSize s) ≤ MAX_BUFFER_SIZE ∧
  (cl_outbox cl' = cl_outbox cl ∨
   cl_outbox cl' = cl_outbox cl ++ [generateErrorResponse s 400 "Bad Request"]).
Proof.
  intros Hrx.
  assert (Hclamp : DEFAULT_BUFFER_SIZE
                     ≤ maxRequestSize (setMaxRequestSize maxSize s) ≤ MAX_BUFFER_SIZE).
  { cbn [setMaxRequestSize maxRequestSize]. unfold MAX_BUFFER_SIZE, DEFAULT_BUFFER_SIZE.
    destruct (8192 <? maxSize) eqn:E1; [lia|].
    destruct (maxSize <? 2048) eqn:E2; [lia|].
    apply Z.ltb_ge in E1, E2. lia. }
  split; [exact Hclamp|].
  destruct (receive_effects _ _ _ Hrx) as (_ & _ & [Hout|[Hout|[_ Hsmall]]]).
  - left. exact Hout.
  - right. exact Hout.
  - lia.
Qed.

(** X3. A first read that the parser rejects is answered with exactly one
    400 response and [handleConnection] returns [false], so that [tick]
    drops the connection; no middleware or handler is called. *)
Theorem malformed_request_gets_400 (s : HttpServer) (freeRam clock : Z)
    (conn : HttpClientConnection) (seg : list ascii) (rest : list (list ascii)) :
  hasEnoughMemory freeRam = true →
  cl_inbox (client conn) = seg :: rest → seg ≠ [] →
  Z.of_nat (length seg) ≤ DEFAULT_BUFFER_SIZE →
  Z.of_nat (length seg) ≤ maxRequestSize s →
  phr_ret (phr_parse_request seg 0) = -1 →
  ∃ r : hc_result,
    handleConnection s freeRam clock conn = Returned r ∧
    hc_keep r = false ∧ hc_trace r = [] ∧
    sent r = cl_outbox (client conn) ++ [generateErrorResponse s 400 "Bad Request"] ∧
    cl_inbox (client (hc_conn r)) = rest.
Proof.
  intros Hmem Hin Hne Hfit Hmax Hret.
  assert (Hn : 0 < Z.of_nat (length seg)) by (destruct seg; [done | cbn [length]; lia]).
  unfold handleConnection. rewrite Hmem. cbn [negb].
  assert (Hav : available (client conn) = Z.of_nat (length seg))
    by (unfold available; rewrite Hin; reflexivity).
  rewrite Hav. replace (Z.of_nat (length seg) =? 0) with false
    by (symmetry; apply Z.eqb_neq; lia).
  rewrite receive_once_eq. unfold receive_once.
  replace (maxRequestSize s <=? 0) with false by (symmetry; apply Z.leb_gt; lia).
  rewrite (client_read_segment _ seg rest Hin Hfit).
  replace (Z.of_nat (length seg) =? -1) with false by (symmetry; apply Z.eqb_neq; lia).
  replace (Z.of_nat (length seg) =? 0) with false by (symmetry; apply Z.eqb_neq; lia).
  replace (maxRequestSize s <? Z.of_nat (length seg)) with false
    by (symmetry; apply Z.ltb_ge; lia).
  cbv zeta. rewrite Hret, Z.eqb_refl.
  eexists. split_and!; reflexivity.
Qed.

(** X4. A first read in which the header block has not ended is not waited
    on: the converted -2 ends the loop, and a request is built at once from
    what the parser has filled in so far, with an empty body, and goes
    through the pipeline like a complete one. *)
Theorem incomplete_request_is_served (s : HttpServer) (cl : WiFiClient)
    (seg : list ascii) (rest : list (list ascii)) :
  cl_inbox cl = seg :: rest → seg ≠ [] →
  Z.of_nat (length seg) ≤ DEFAULT_BUFFER_SIZE →
  Z.of_nat (length seg) ≤ maxRequestSize s →
  phr_ret (phr_parse_request seg 0) = -2 →
  receive s cl = RxRequest (build_request (phr_parse_request seg 0) "") (after_read cl rest).
Proof.
  intros Hin Hne Hfit Hmax Hret.
  pose proof DEFAULT_BUFFER_SIZE_eq as HB.
  assert (Hn : 0 < Z.of_nat (length seg)) by (destruct seg; [done | cbn [length]; lia]).
  rewrite receive_once_eq. unfold receive_once.
  replace (maxRequestSize s <=? 0) with false by (symmetry; apply Z.leb_gt; lia).
  rewrite (client_read_segment _ seg rest Hin Hfit).
  replace (Z.of_nat (length seg) =? -1) with false by (symmetry; apply Z.eqb_neq; lia).
  replace (Z.of_nat (length seg) =? 0) with false by (symmetry; apply Z.eqb_neq; lia).
  replace (maxRequestSize s <? Z.of_nat (length seg)) with false
    by (symmetry; apply Z.ltb_ge; lia).
  cbv zeta. rewrite Hret, minus_two_size_t, minus_one_size_t.
  change (4294967294 =? 4294967295) with false.
  change (4294967294 <=? 0) with false. cbv iota.
  unfold extract_body.
  replace (4294967294 <? Z.of_nat (length seg)) with false
    by (symmetry; apply Z.ltb_ge; lia).
  reflexivity.
Qed.

End ReceiveOutcomes.

Lemma no_413_after_setMaxRequestSize_witness :
  DEFAULT_BUFFER_SIZE ≤ maxRequestSize small_server ≤ MAX_BUFFER_SIZE ∧
  (cl_outbox (after_read (socket big_post_segments) (tail big_post_segments)) = [] ∨
   cl_outbox (after_read (socket big_post_segments) (tail big_post_segments))
     = [] ++ [generateErrorResponse HttpServer_new 400 "Bad Request"]).
Proof.
  apply (@no_413_after_setMaxRequestSize model 2048 HttpServer_new
           (socket big_post_segments)).
  vm_compute. reflexivity.
Defined.

Lemma malformed_request_gets_400_witness :
  ∃ r : hc_result,
    @handleConnection model HttpServer_new 100000 0 (fresh_connection [bad_request_line])
      = Returned r ∧
    hc_keep r = false ∧ hc_trace r = [] ∧
    sent r = [] ++ [generateErrorResponse HttpServer_new 400 "Bad Request"] ∧
    cl_inbox (client (hc_conn r)) = [].
Proof.
  apply (@malformed_request_gets_400 model HttpServer_new 100000 0
           (fresh_connection [bad_request_line]) bad_request_line []).
  - reflexivity.
  - reflexivity.
  - discriminate.
  - vm_compute. discriminate.
  - vm_compute. discriminate.
  - vm_compute. reflexivity.
Defined.

Lemma incomplete_request_is_served_witness :
  @receive model auth_server (socket [unfinished_request; bytes (CRLF +:+ CRLF)])
  = RxRequest (@build_request model (phr_parse_request_model unfinished_request 0) "")
              (socket [bytes (CRLF +:+ CRLF)]).
Proof.
  apply (@incomplete_request_is_served model auth_server
           (socket [unfinished_request; bytes (CRLF +:+ CRLF)])
           unfinished_request [bytes (CRLF +:+ CRLF)]).
  - reflexivity.
  - discriminate.
  - vm_compute. discriminate.
  - vm_compute. discriminate.
  - vm_compute. reflexivity.
Defined.


(** ** What one call does to the connection *)

(** Serving a request sends exactly one response, reads nothing more,
    takes no time on the clock and always returns [true]. The activity
    timestamp is set to the current time, except on the CORS preflight
    branch, which leaves it as it was. *)
Lemma serve_effects (s : HttpServer) (clock : Z) (conn : HttpClientConnection)
    (cl : WiFiClient) (req : HttpRequest) (r : hc_result) :
  serve s clock conn cl req = Returned r →
  (∃ response : HubHttpResponse, sent r = cl_outbox cl ++ [response]) ∧
  cl_inbox (client (hc_conn r)) = cl_inbox cl ∧
  cl_connected (client (hc_conn r)) = cl_connected cl ∧
  hc_clock r = clock ∧ hc_keep r = true ∧
  lastActivityMillis (hc_conn r)
    = (if is_preflight s req then lastActivityMillis conn else millis clock).
Proof.
  unfold serve, is_preflight.
  destruct (corsEnabled s && bool_decide (req_method req = "OPTIONS")).
  - intros E. injection E as <-. cbn. eauto 10.
  - destruct (applyMiddlewares s req HubHttpResponse_new) as [[req1 response1] t1].
    destruct (dispatch s req1 response1) as [[[choice req2] [response2|]] t2];
      [|discriminate].
    destruct (compose s req2 response2) as [[req3 response3] t3].
    intros E. injection E as <-. cbn. eauto 10.
Qed.



Section BoundedWork.
Context `{Collaborators}.

(** One call of [handleConnection] does a bounded amount of work on the
    connection: it takes at most [DEFAULT_BUFFER_SIZE] bytes from the front
    of what the socket holds, sends at most one response, lets at most 4 ms
    pass, and leaves the socket connected as it was. *)
Lemma handleConnection_effects (s : HttpServer) (freeRam clock : Z)
    (conn : HttpClientConnection) (r : hc_result) :
  handleConnection s freeRam clock conn = Returned r →
  (∃ consumed : list ascii,
      pending (client conn) = consumed ++ pending (client (hc_conn r)) ∧
      Z.of_nat (length consumed) ≤ DEFAULT_BUFFER_SIZE) ∧
  (sent r = cl_outbox (client conn) ∨
   ∃ response : HubHttpResponse, sent r = cl_outbox (client conn) ++ [response]) ∧
  clock ≤ hc_clock r ≤ clock + 4 ∧
  connected (hc_conn r) = connected conn.
Proof.
  pose proof DEFAULT_BUFFER_SIZE_eq as HB.
  unfold handleConnection. destruct (hasEnoughMemory freeRam); cbn [negb].
  2: { intros E. injection E as <-. cbn.
       split_and!; [exists []; split; [reflexivity | cbn; lia] | eauto | lia | lia
                    | reflexivity]. }
  destruct (available (client conn) =? 0).
  { intros E. injection E as <-. cbn.
    split_and!; [exists []; split; [reflexivity | cbn; lia] | eauto | lia | lia
                 | reflexivity]. }
  destruct (receive s (client conn)) as [keep cl'|req cl'|] eqn:Erx; [| |discriminate].
  - assert (Hc : rx_client (receive s (client conn)) = Some cl') by (rewrite Erx; reflexivity).
    destruct (receive_effects _ _ _ Hc) as (Hconn & Hcons & Hout).
    intros E. injection E as <-. unfold sent, connected.
    cbn [hc_conn client hc_clock].
    split_and!; [exact Hcons | | lia | lia | exact Hconn].
    destruct Hout as [->|[->|[-> _]]]; eauto.
  - assert (Hc : rx_client (receive s (client conn)) = Some cl') by (rewrite Erx; reflexivity).
    destruct (receive_effects _ _ _ Hc) as (Hconn & (consumed & Hpend & Hlen) & Hout).
    intros Hserve.
    destruct (serve_effects _ _ _ _ _ _ Hserve)
      as ((response & Hsent) & Hin & Hconn' & -> & _ & _).
    assert (Hsilent : cl_outbox cl' = cl_outbox (client conn)).
    { clear Hout Hc.
      rewrite receive_once_eq in Erx. unfold receive_once in Erx.
      destruct (maxRequestSize s <=? 0); [discriminate|].
      destruct (client_read (client conn) DEFAULT_BUFFER_SIZE) as [[rr got] cl1] eqn:Eread.
      apply client_read_spec in Eread as (_ & Hout1 & _).
      repeat match type of Erx with
             | (if ?c then _ else _) = _ => destruct c; [discriminate|]
             end.
      cbv zeta in Erx.
      repeat match type of Erx with
             | (if ?c then _ else _) = _ => destruct c; [discriminate|]
             end.
      destruct (extract_body _ _ _); [|discriminate].
      injection Erx as _ <-. exact Hout1. }
    split_and!.
    + exists consumed. split; [|exact Hlen]. rewrite Hpend. f_equal.
      unfold pending. rewrite Hin. reflexivity.
    + right. exists response. rewrite Hsent, Hsilent. reflexivity.
    + lia.
    + lia.
    + unfold connected. rewrite Hconn', Hconn. reflexivity.
Qed.



End BoundedWork.






(** ** Response composition *)

(** X9. The loop of [applyDefaultHeaders] fills in exactly the default
    headers whose names the response lacks: the headers afterwards are the
    response's own, completed by the defaults, and status and body are
    untouched. *)
Theorem applyDefaultHeaders_loop_fills_absent (s : HttpServer) (response : HubHttpResponse) :
  applyDefaultHeaders_loop s response = applyDefaultHeaders s response ∧
  ∀ name : string,
    headers (applyDefaultHeaders_loop s response) !! name
      = match headers response !! name with
        | Some own => Some own
        | None => defaultHeaders s !! name
        end.
Proof.
  assert (Hloop : applyDefaultHeaders_loop s response = applyDefaultHeaders s response).
  { unfold applyDefaultHeaders_loop, applyDefaultHeaders.
    generalize (defaultHeaders s) as d.
    apply (map_fold_weak_ind
             (λ (r : HubHttpResponse) (d : gmap string string),
                r = mkResponse (status response) (body response) (headers response ∪ d))).
    - rewrite (right_id_L ∅ (∪)). destruct response; reflexivity.
    - intros name value d r Hfresh ->. cbn [headers].
      case_bool_decide as Hhas.
      + f_equal. apply map_eq. intros k. rewrite !lookup_union.
        destruct (decide (k = name)) as [->|Hne].
        * rewrite lookup_insert_eq, Hfresh.
          rewrite lookup_union, Hfresh in Hhas.
          destruct (headers response !! name); [reflexivity|].
          destruct Hhas as [? [=]].
        * rewrite lookup_insert_ne by congruence. reflexivity.
      + unfold setHeader. cbn [status body headers]. f_equal.
        apply map_eq. intros k. rewrite lookup_union.
        destruct (decide (k = name)) as [->|Hne].
        * rewrite !lookup_insert_eq.
          rewrite lookup_union, Hfresh in Hhas.
          destruct (headers response !! name); [|reflexivity].
          exfalso. apply Hhas. eauto.
        * rewrite !lookup_insert_ne by congruence. rewrite lookup_union. reflexivity. }
  split; [exact Hloop|]. intros name. rewrite Hloop. unfold applyDefaultHeaders.
  cbn [headers]. rewrite lookup_union.
  destruct (headers response !! name), (defaultHeaders s !! name); reflexivity.
Qed.

(** X10. With no before-send hook, composition leaves status and body as
    the handler set them and fixes the headers by a strict precedence: the
    [Connection] header is always the server's own choice; when CORS is
    enabled the four CORS headers are the configured ones; any other header
    that the handler set is kept; [Server] is otherwise the server's name
    and version; and a default header only fills a name that is still
    absent. *)
Theorem compose_header_precedence (s : HttpServer) (req : HttpRequest)
    (response : HubHttpResponse) :
  beforeSendHook s = None →
  let sent_response := (compose s req response).1.2 in
  status sent_response = status response ∧
  body sent_response = body response ∧
  headers sent_response !! "Connection"
    = Some (if keepAlive s then "keep-alive" else "close") ∧
  (corsEnabled s = true →
     headers sent_response !! "Access-Control-Allow-Origin" = Some (corsOrigin s) ∧
     headers sent_response !! "Access-Control-Allow-Methods" = Some (corsMethods s) ∧
     headers sent_response !! "Access-Control-Allow-Headers" = Some (corsHeaders s) ∧
     headers sent_response !! "Access-Control-Max-Age" = Some "86400") ∧
  (∀ name : string,
      name ≠ "Connection" →
      (corsEnabled s = true → name ∉ cors_header_names) →
      headers sent_response !! name
        = match headers response !! name with
          | Some own => Some own
          | None =>
              if bool_decide (name = "Server")
              then Some (serverName s +:+ "/" +:+ serverVersion s)
              else defaultHeaders s !! name
          end).
Proof.
  intros Hhook. unfold compose. rewrite Hhook. cbv zeta. cbn [fst snd].
  set (r1 := if corsEnabled s then applyCORS s response else response).
  set (r2 := if bool_decide (is_Some (headers r1 !! "Server")) then r1
             else setHeader "Server" (serverName s +:+ "/" +:+ serverVersion s) r1).
  assert (Hsb1 : status r1 = status response ∧ body r1 = body response).
  { subst r1. unfold applyCORS. destruct (corsEnabled s); auto. }
  assert (Hsb2 : status r2 = status response ∧ body r2 = body response).
  { subst r2. case_bool_decide; [exact Hsb1 | exact Hsb1]. }
  assert (Hother : ∀ name, (corsEnabled s = true → name ∉ cors_header_names) →
                           headers r1 !! name = headers response !! name).
  { intros name Hnot. subst r1. unfold applyCORS.
    destruct (corsEnabled s); [|reflexivity]. cbn [negb setHeader headers].
    specialize (Hnot eq_refl). unfold cors_header_names in Hnot.
    rewrite !lookup_insert_ne; [reflexivity|..]; intros <-; apply Hnot;
      repeat first [left | right]. }
  assert (Hc1 : corsEnabled s = true →
                headers r1 !! "Access-Control-Allow-Origin" = Some (corsOrigin s) ∧
                headers r1 !! "Access-Control-Allow-Methods" = Some (corsMethods s) ∧
                headers r1 !! "Access-Control-Allow-Headers" = Some (corsHeaders s) ∧
                headers r1 !! "Access-Control-Max-Age" = Some "86400").
  { intros Hcors. subst r1 r2. rewrite Hcors. unfold applyCORS. rewrite Hcors.
    cbn [negb setHeader headers]. split_and!; by simplify_map_eq. }
  assert (Hserver : headers r1 !! "Server" = headers response !! "Server").
  { apply Hother. intros _ Hin. unfold cors_header_names in Hin.
    repeat (apply elem_of_cons in Hin as [Hin|Hin]; [discriminate|]).
    apply elem_of_nil in Hin. exact Hin. }
  assert (H2 : ∀ name, headers r2 !! name
                       = match headers r1 !! name with
                         | Some own => Some own
                         | None => if bool_decide (name = "Server")
                                   then Some (serverName s +:+ "/" +:+ serverVersion s)
                                   else None
                         end).
  { intros name. subst r2. case_bool_decide as Hhas.
    - destruct (headers r1 !! name) eqn:E; [reflexivity|].
      case_bool_decide as Hn; [|reflexivity]. subst name. rewrite E in Hhas.
      destruct Hhas as [? [=]].
    - cbn [setHeader headers]. destruct (decide (name = "Server")) as [->|Hne].
      + rewrite lookup_insert_eq, bool_decide_eq_true_2 by reflexivity.
        destruct (headers r1 !! "Server") eqn:E; [|reflexivity].
        exfalso. apply Hhas. eauto.
      + rewrite lookup_insert_ne by congruence.
        rewrite bool_decide_eq_false_2 by exact Hne.
        destruct (headers r1 !! name); reflexivity. }
  unfold applyDefaultHeaders, setHeader. cbn [status body headers].
  split_and!.
  - apply Hsb2.
  - apply Hsb2.
  - apply lookup_insert_eq.
  - intros Hcors. destruct (Hc1 Hcors) as (Ho & Hm & Hh & Ha).
    split_and!; (rewrite lookup_insert_ne by discriminate);
      rewrite lookup_union, H2.
    + rewrite Ho. destruct (defaultHeaders s !! "Access-Control-Allow-Origin"); reflexivity.
    + rewrite Hm. destruct (defaultHeaders s !! "Access-Control-Allow-Methods"); reflexivity.
    + rewrite Hh. destruct (defaultHeaders s !! "Access-Control-Allow-Headers"); reflexivity.
    + rewrite Ha. destruct (defaultHeaders s !! "Access-Control-Max-Age"); reflexivity.
  - intros name Hconn Hcors. rewrite lookup_insert_ne by congruence.
    rewrite lookup_union, H2, (Hother name Hcors).
    destruct (headers response !! name); [destruct (defaultHeaders s !! name); reflexivity|].
    case_bool_decide; destruct (defaultHeaders s !! name); reflexivity.
Qed.

Lemma compose_header_precedence_witness :
  let sent_response :=
    (compose branded_server view_request
             (setHeader "X-Frame-Options" "SAMEORIGIN" HubHttpResponse_new)).1.2 in
  headers sent_response !! "Connection" = Some "close" ∧
  headers sent_response !! "Server" = Some "Hub-Server/1.0" ∧
  headers sent_response !! "X-Frame-Options" = Some "SAMEORIGIN".
Proof.
  destruct (compose_header_precedence branded_server view_request
              (setHeader "X-Frame-Options" "SAMEORIGIN" HubHttpResponse_new) eq_refl)
    as (_ & _ & Hconn & _ & Hother).
  split_and!.
  - exact Hconn.
  - apply (Hother "Server"); [discriminate | discriminate].
  - apply (Hother "X-Frame-Options"); [discriminate | discriminate].
Defined.

(** The before-send hook runs last and has the final word: it is given
    the response exactly as composition without a hook would send it, and
    what it returns is what is sent. *)
Theorem beforeSendHook_has_final_word (s : HttpServer) (hook : BeforeSendHook)
    (req : HttpRequest) (response : HubHttpResponse) :
  let plain := compose s req response in
  beforeSendHook s = None →
  compose (onBeforeSend hook s) req response
    = (hook req plain.1.2, [EvBeforeSend]).
Proof.
  cbv zeta. intros Hnone. unfold compose. rewrite Hnone.
  cbn [beforeSendHook onBeforeSend corsEnabled serverName serverVersion keepAlive fst snd].
  unfold applyCORS, applyDefaultHeaders.
  cbn [onBeforeSend corsEnabled corsOrigin corsMethods corsHeaders defaultHeaders].
  destruct (hook req _) as [req' r5]. reflexivity.
Qed.

Lemma beforeSendHook_has_final_word_witness :
  compose (onBeforeSend (λ req r, (req, setStatus 418 r)) HttpServer_new)
          view_request HubHttpResponse_new
  = ((λ req r, (req, setStatus 418 r)) view_request
       (compose HttpServer_new view_request HubHttpResponse_new).1.2, [EvBeforeSend]).
Proof.
  apply (beforeSendHook_has_final_word HttpServer_new (λ req r, (req, setStatus 418 r))).
  reflexivity.
Defined.


(** ** The middleware pipeline *)

Lemma applyMiddlewares_from_prefix (i : nat) (mws : list MiddlewareHandlerBool)
    (req : HttpRequest) (response : HubHttpResponse) :
  ∃ k : nat,
    (k ≤ length mws)%nat ∧
    (applyMiddlewares_from i mws req response).2 = EvMiddleware <$> seq i k ∧
    (mws ≠ [] → (0 < k)%nat) ∧
    (Forall always_continues mws → k = length mws).
Proof.
  revert i req response. induction mws as [|mw mws IH]; intros i req response.
  - exists 0%nat. split_and!; [lia | reflexivity | done | reflexivity].
  - cbn [applyMiddlewares_from].
    destruct (mw req response) as [[continue req'] response'] eqn:Emw.
    destruct continue; cbn [negb].
    + destruct (IH (S i) req' response') as (k & Hk & Htrace & _ & Hall).
      destruct (applyMiddlewares_from (S i) mws req' response') as [[req2 response2] t].
      cbn [snd] in *. exists (S k). split_and!.
      * cbn [length]. lia.
      * cbn [seq fmap list_fmap]. rewrite Htrace. reflexivity.
      * lia.
      * intros Hfa. apply Forall_cons in Hfa as [_ Hfa]. rewrite (Hall Hfa). reflexivity.
    + exists 1%nat. split_and!.
      * cbn [length]. lia.
      * reflexivity.
      * lia.
      * intros Hfa. apply Forall_cons in Hfa as [Hmw _].
        specialize (Hmw req response). rewrite Emw in Hmw. discriminate.
Qed.

(** X11. The middlewares run in registration order without gaps, each at
    most once: the stages that are called are the first [k] of them, at
    least one when any is registered, and all of them when every stage
    continues. *)
Theorem middlewares_run_in_registration_order (s : HttpServer) (req : HttpRequest)
    (response : HubHttpResponse) :
  ∃ k : nat,
    (k ≤ length (middlewares s))%nat ∧
    (applyMiddlewares s req response).2 = EvMiddleware <$> seq 0 k ∧
    (middlewares s ≠ [] → (0 < k)%nat) ∧
    (Forall always_continues (middlewares s) → k = length (middlewares s)).
Proof. apply applyMiddlewares_from_prefix. Qed.

Lemma middlewares_use_all_legacy (legacy : list MiddlewareHandler) (s : HttpServer) :
  middlewares (use_all_legacy legacy s) = middlewares s ++ (wrap_legacy <$> legacy).
Proof.
  revert s. induction legacy as [|mw legacy IH]; intros s.
  - cbn. rewrite app_nil_r. reflexivity.
  - unfold use_all_legacy in *. cbn [foldl fmap list_fmap]. rewrite IH.
    cbn [use_legacy use middlewares]. rewrite <- app_assoc. reflexivity.
Qed.

(** X12. A middleware registered in the legacy form can never halt the
    pipeline: on a server whose stages were all registered that way, every
    stage is called on every request. *)
Theorem legacy_middlewares_all_run (legacy : list MiddlewareHandler) (s : HttpServer)
    (req : HttpRequest) (response : HubHttpResponse) :
  middlewares s = [] →
  (applyMiddlewares (use_all_legacy legacy s) req response).2
    = EvMiddleware <$> seq 0 (length legacy).
Proof.
  intros Hnone.
  destruct (applyMiddlewares_from_prefix 0 (middlewares (use_all_legacy legacy s))
              req response) as (k & _ & Htrace & _ & Hall).
  unfold applyMiddlewares. rewrite Htrace.
  rewrite Hall; rewrite middlewares_use_all_legacy, Hnone; cbn [app].
  - rewrite length_fmap. reflexivity.
  - apply Forall_fmap, Forall_forall. intros mw _ q r. unfold wrap_legacy. cbn.
    destruct (mw q r). reflexivity.
Qed.

Lemma legacy_middlewares_all_run_witness :
  (applyMiddlewares (use_all_legacy [log_middleware; log_middleware] HttpServer_new)
                    view_request HubHttpResponse_new).2
  = EvMiddleware <$> seq 0 2.
Proof.
  apply (legacy_middlewares_all_run [log_middleware; log_middleware] HttpServer_new).
  reflexivity.
Defined.

(** ** Segments and patterns *)

Lemma chars_snoc (s : string) (a : ascii) : chars (s +:+ String a "") = chars s ++ [a].
Proof.
  induction s as [|b s IH]; [reflexivity|].
  change (String b s +:+ String a "") with (String b (s +:+ String a "")).
  unfold chars in *. cbn [list_ascii_of_string]. rewrite IH. reflexivity.
Qed.

Lemma push_segment_elem (cur seg : string) : seg ∈ push_segment cur → seg = cur ∧ cur ≠ "".
Proof.
  destruct cur; cbn [push_segment]; intros Hin.
  - apply elem_of_nil in Hin. contradiction.
  - apply list_elem_of_singleton in Hin. subst. split; [reflexivity | discriminate].
Qed.

Lemma split_from_wellformed (s cur seg : string) :
  SLASH ∉ chars cur → seg ∈ split_from cur s → seg ≠ "" ∧ SLASH ∉ chars seg.
Proof.
  revert cur. induction s as [|a s IH]; intros cur Hcur Hin.
  - cbn [split_from] in Hin. apply push_segment_elem in Hin as [-> Hne]. auto.
  - cbn [split_from] in Hin. case_bool_decide as Ha.
    + apply elem_of_app in Hin as [Hin|Hin].
      * apply push_segment_elem in Hin as [-> Hne]. auto.
      * apply (IH ""); [|exact Hin]. cbn. apply not_elem_of_nil.
    + apply (IH (cur +:+ String a "")); [|exact Hin].
      rewrite chars_snoc. intros Hs. apply elem_of_app in Hs as [Hs|Hs]; [auto|].
      apply list_elem_of_singleton in Hs. congruence.
Qed.

Lemma capture_all_lookup_cases (kvs : list (string * string)) (m : gmap string string)
    (k v : string) :
  capture_all kvs m !! k = Some v → m !! k = Some v ∨ (k, v) ∈ kvs.
Proof.
  revert m. induction kvs as [|[k' v'] kvs IH]; intros m Hl; [left; exact Hl|].
  rewrite capture_all_cons in Hl. apply IH in Hl as [Hl|Hl].
  - cbn [fst snd] in Hl. destruct (decide (k' = k)) as [->|Hne].
    + rewrite lookup_insert_eq in Hl. injection Hl as ->. right. left.
    + rewrite lookup_insert_ne in Hl by exact Hne. left. exact Hl.
  - right. right. exact Hl.
Qed.

Lemma captures_value (pat act : list string) (k v : string) :
  (k, v) ∈ captures pat act → v ∈ act.
Proof.
  revert act. induction pat as [|p pat IH]; intros [|a act] Hin;
    try (cbn in Hin; apply elem_of_nil in Hin; contradiction).
  cbn [captures] in Hin. destruct (startsWith COLON p).
  - apply elem_of_cons in Hin as [Hin|Hin].
    + injection Hin as _ ->. left.
    + right. apply IH, Hin.
  - right. apply IH, Hin.
Qed.

(** X13. Segments are the non-empty pieces between slashes: no segment of a
    registered pattern or of a request path is empty or contains a slash,
    and so a path parameter captured by a matching route is never empty and
    never contains a slash. *)
Theorem segments_and_params_are_wellformed :
  (∀ (p seg : string), seg ∈ split_segments p → seg ≠ "" ∧ SLASH ∉ chars seg) ∧
  (∀ (method path seg : string) (h : RouteHandler),
      seg ∈ rp_segments (make_pattern method path h) → seg ≠ "" ∧ SLASH ∉ chars seg) ∧
  (∀ (rp : RoutePattern) (method path : string) (req : HttpRequest) (name value : string),
      (matchPattern rp method path req).1 = true →
      req_params (matchPattern rp method path req).2 !! name = Some value →
      req_params req !! name = Some value ∨ (value ≠ "" ∧ SLASH ∉ chars value)).
Proof.
  assert (Hseg : ∀ (p seg : string),
             seg ∈ split_segments p → seg ≠ "" ∧ SLASH ∉ chars seg).
  { intros p seg. apply split_from_wellformed. cbn. apply not_elem_of_nil. }
  split_and!.
  - exact Hseg.
  - intros method path seg h. cbn [make_pattern rp_segments]. apply Hseg.
  - intros rp method path req name value Hm Hl.
    rewrite matchPattern_params in Hl by exact Hm.
    apply capture_all_lookup_cases in Hl as [Hl|Hl]; [left; exact Hl|].
    right. apply captures_value in Hl. apply (Hseg path), Hl.
Qed.

Lemma lower_char_idempotent (c : ascii) : lower_char (lower_char c) = lower_char c.
Proof. destruct c as [[] [] [] [] [] [] [] []]; reflexivity. Qed.

Lemma equalsIgnoreCase_refl (a : string) : equalsIgnoreCase a a = true.
Proof.
  induction a as [|x a IH]; [reflexivity|]. cbn [equalsIgnoreCase].
  rewrite IH, bool_decide_eq_true_2 by reflexivity. reflexivity.
Qed.

Lemma equalsIgnoreCase_toLowerCase (a : string) : equalsIgnoreCase a (toLowerCase a) = true.
Proof.
  induction a as [|x a IH]; [reflexivity|]. cbn [equalsIgnoreCase toLowerCase].
  rewrite IH, bool_decide_eq_true_2 by (symmetry; apply lower_char_idempotent). reflexivity.
Qed.

Lemma equalsIgnoreCase_lower_eq (a b : string) :
  equalsIgnoreCase a b = true ↔ toLowerCase a = toLowerCase b.
Proof.
  revert b. induction a as [|x a IH]; intros [|y b]; cbn [equalsIgnoreCase toLowerCase];
    try (split; [discriminate | intros [=]]); [done|].
  rewrite andb_true_iff, bool_decide_eq_true, IH. split.
  - intros [-> ->]. reflexivity.
  - intros [= -> ->]. auto.
Qed.

(** X14. A route registered with [on(method, path, handler)] matches a
    request for that same path text whenever the request's method equals
    the registered one up to letter case. *)
Theorem registered_route_matches_own_path (method method' path : string) (h : RouteHandler)
    (req : HttpRequest) :
  equalsIgnoreCase method method' = true →
  (matchPattern (make_pattern method path h) method' path req).1 = true.
Proof.
  intros Hm. apply matchPattern_true. unfold route_matches.
  cbn [make_pattern rp_method rp_segments]. rewrite split_segments_strip.
  split_and!; [exact Hm | reflexivity | congruence].
Qed.

Lemma registered_route_matches_own_path_witness :
  (matchPattern (make_pattern "GET" "/user/:id/edit/" (ok_handler "edit"))
                "get" "/user/:id/edit/" view_request).1 = true.
Proof.
  apply (registered_route_matches_own_path "GET" "get" "/user/:id/edit/").
  reflexivity.
Defined.

Lemma split_from_app_slash (s cur : string) : split_from cur (s +:+ "/") = split_from cur s.
Proof.
  revert cur. induction s as [|a s IH]; intros cur.
  - cbn. apply app_nil_r.
  - change (String a s +:+ "/") with (String a (s +:+ "/")). cbn [split_from].
    case_bool_decide; rewrite IH; reflexivity.
Qed.

Lemma split_from_double_slash (a b cur : string) :
  split_from cur (a +:+ String SLASH (String SLASH b))
  = split_from cur (a +:+ String SLASH b).
Proof.
  revert cur. induction a as [|x a IH]; intros cur.
  - change ("" +:+ String SLASH (String SLASH b)) with (String SLASH (String SLASH b)).
    change ("" +:+ String SLASH b) with (String SLASH b).
    cbn [split_from]. rewrite !bool_decide_eq_true_2 by reflexivity. reflexivity.
  - change (String x a +:+ String SLASH (String SLASH b))
      with (String x (a +:+ String SLASH (String SLASH b))).
    change (String x a +:+ String SLASH b) with (String x (a +:+ String SLASH b)).
    cbn [split_from]. case_bool_decide; rewrite IH; reflexivity.
Qed.

Lemma matchPattern_by_segments (rp : RoutePattern) (method p p' : string)
    (req : HttpRequest) :
  split_segments p = split_segments p' →
  matchPattern rp method p req = matchPattern rp method p' req.
Proof.
  intros E. unfold matchPattern. rewrite !split_segments_strip, E. reflexivity.
Qed.

(** X15. Pattern matching sees a path only through its segments: a trailing
    slash or a doubled slash in the request path changes neither whether a
    pattern matches nor what it captures. *)
Theorem pattern_matching_ignores_extra_slashes (rp : RoutePattern) (method : string)
    (req : HttpRequest) :
  (∀ p : string,
      matchPattern rp method (p +:+ "/") req = matchPattern rp method p req) ∧
  (∀ a b : string,
      matchPattern rp method (a +:+ String SLASH (String SLASH b)) req
      = matchPattern rp method (a +:+ String SLASH b) req).
Proof.
  split.
  - intros p. apply matchPattern_by_segments, split_from_app_slash.
  - intros a b. apply matchPattern_by_segments, split_from_double_slash.
Qed.

(** ** The exact-path table *)

Lemma resolves_exact_only (s : HttpServer) (method path : string) (choice : route_choice) :
  resolves s method path choice →
  no_pattern_matches s method path → is_Some (httpHandlers s !! path) →
  choice = ByExactPath path.
Proof.
  intros Hres Hnone [h Hh]. destruct Hres as [r rp Hr Hm _| | | |].
  - exfalso. apply (Hnone r rp Hr Hm).
  - reflexivity.
  - congruence.
  - congruence.
  - congruence.
Qed.

(** X16. After [on(path, handler)], a request for [path] that no pattern
    route matches is answered by [handler], whatever the method and
    whatever was registered for that path before. *)
Theorem on_registers_handler (s : HttpServer) (path : string) (h : RouteHandler)
    (req : HttpRequest) (response : HubHttpResponse) :
  req_path req = path →
  no_pattern_matches s (req_method req) path →
  (dispatch (on path h s) req response).1.1.1 = ByExactPath path ∧
  ∃ req1 : HttpRequest,
    req_method req1 = req_method req ∧ req_path req1 = path ∧
    (dispatch (on path h s) req response).1.2
      = Some (invoke_guarded (on path h s) h req1).2.
Proof.
  intros Hpath Hnone.
  assert (Hlookup : httpHandlers (on path h s) !! path = Some h)
    by (cbn [on httpHandlers]; apply lookup_insert_eq).
  pose proof (dispatch_spec (on path h s) req response) as [Hres (req1 & Hm & Hp & Hprod)].
  rewrite Hpath in Hres.
  apply resolves_exact_only in Hres; [|exact Hnone | rewrite Hlookup; eauto].
  split; [exact Hres|]. rewrite Hres in Hprod.
  destruct Hprod as (h' & Hh' & E). assert (h' = h) by congruence. subst h'.
  exists req1. split_and!; [exact Hm | congruence |].
  destruct (invoke_guarded (on path h s) h req1) as [a b].
  apply (f_equal snd) in E. cbn [snd] in *. exact E.
Qed.

Lemma on_registers_handler_witness :
  (dispatch (on "/api/user/42" (ok_handler "second") user_server)
            (user_request "POST") HubHttpResponse_new).1.1.1
  = ByExactPath "/api/user/42".
Proof.
  apply (on_registers_handler user_server "/api/user/42" (ok_handler "second")
           (user_request "POST") HubHttpResponse_new).
  - reflexivity.
  - intros r rp Hr Hm. apply matchPattern_true with (req := user_request "POST") in Hm.
    destruct r as [|r]; [|destruct r; discriminate].
    injection Hr as <-. vm_compute in Hm. discriminate.
Defined.


(** ** Header lookup *)

Section HeaderLookup.
Context `{Collaborators}.

Lemma add_headers_lower (hs : list (list ascii * list ascii)) (req : HttpRequest)
    (lname : string) :
  req_headersLower
    (foldl (λ req (h : list ascii * list ascii),
              add_header (string_of_list_ascii h.1) (string_of_list_ascii h.2) req)
           req hs) !! lname
  = match last_header hs lname with
    | Some v => Some v
    | None => req_headersLower req !! lname
    end.
Proof.
  revert req. induction hs as [|h hs IH]; intros req; [reflexivity|].
  cbn [foldl last_header]. rewrite IH.
  destruct (last_header hs lname); [reflexivity|].
  cbn [add_header req_headersLower]. case_bool_decide as E.
  - rewrite E. apply lookup_insert_eq.
  - apply lookup_insert_ne, E.
Qed.

Lemma build_request_headersLower (out : phr_result) (b : string) (lname : string) :
  req_headersLower (build_request out b) !! lname = last_header (phr_headers out) lname.
Proof.
  unfold build_request. rewrite add_headers_lower.
  destruct (last_header (phr_headers out) lname); [reflexivity|].
  cbn [set_path req_headersLower].
  destruct (find_query (string_of_list_ascii (phr_path out))) as [[p q]|].
  - unfold parse_query.
    match goal with |- context [foldl parse_query_pair ?r ?l] =>
      pose proof (parse_query_frame l r) as Hq end.
    cbn zeta in Hq. destruct Hq as (_ & _ & _ & _ & _ & ->). reflexivity.
  - reflexivity.
Qed.

(** X17. Header lookup on a request ignores letter case on both sides: the
    name asked for and the name as it was received are compared in lower
    case, the last header of that name wins, and a name that was not
    received yields the default. *)
Theorem header_lookup_ignores_case (out : phr_result) (b : string)
    (name dflt : string) :
  let req := build_request out b in
  getHeader req name dflt
    = default dflt (last_header (phr_headers out) (toLowerCase name)) ∧
  hasHeader req name
    = bool_decide (is_Some (last_header (phr_headers out) (toLowerCase name))) ∧
  (∀ name' : string,
      equalsIgnoreCase name name' = true →
      getHeader req name dflt = getHeader req name' dflt ∧
      hasHeader req name = hasHeader req name').
Proof.
  cbv zeta. unfold getHeader, hasHeader.
  rewrite !build_request_headersLower. split_and!; [reflexivity | reflexivity|].
  intros name' Heq. apply equalsIgnoreCase_lower_eq in Heq.
  rewrite !build_request_headersLower, Heq. split; reflexivity.
Qed.

End HeaderLookup.

Lemma header_lookup_ignores_case_witness :
  getHeader (@build_request model (phr_parse_request_model typed_post 0) "")
            "CONTENT-type" ""
  = "application/json".
Proof.
  exact (proj1 (@header_lookup_ignores_case model (phr_parse_request_model typed_post 0)
                  "" "CONTENT-type" "")).
Defined.

(** ** The request path *)

Lemma find_query_chars (s : string) :
  match find_query s with
  | Some (p, _) => QUESTION ∉ chars p
  | None => QUESTION ∉ chars s
  end.
Proof.
  induction s as [|a s IH]; [cbn; apply not_elem_of_nil|].
  cbn [find_query]. case_bool_decide as Ha; [cbn; apply not_elem_of_nil|].
  destruct (find_query s) as [[p q]|]; cbn [fmap option_fmap option_map fst snd];
    unfold chars in *; cbn [list_ascii_of_string];
    intros Hin; apply elem_of_cons in Hin as [Hin|Hin]; congruence.
Qed.

Lemma upto_nul_chars (s : string) (c : ascii) : c ∈ chars (upto_nul s) → c ∈ chars s.
Proof.
  induction s as [|a s IH]; [done|]. cbn [upto_nul]. case_bool_decide.
  - intros Hin. apply elem_of_nil in Hin. contradiction.
  - unfold chars in *. cbn [list_ascii_of_string]. intros Hin.
    apply elem_of_cons in Hin as [->|Hin]; [left | right; apply IH, Hin].
Qed.

Lemma remove_last_chars (s : string) (c : ascii) : c ∈ chars (remove_last s) → c ∈ chars s.
Proof.
  induction s as [|a s IH]; [done|]. destruct s as [|b s].
  - intros Hin. apply elem_of_nil in Hin. contradiction.
  - change (remove_last (String a (String b s))) with (String a (remove_last (String b s))).
    unfold chars in *. cbn [list_ascii_of_string] in *. intros Hin.
    apply elem_of_cons in Hin as [->|Hin]; [left | right; apply IH, Hin].
Qed.

Lemma strip_trailing_slash_chars (s : string) (c : ascii) :
  c ∈ chars (strip_trailing_slash s) → c ∈ chars s.
Proof.
  unfold strip_trailing_slash.
  destruct ((1 <? zlength s) && endsWith SLASH s); [apply remove_last_chars | done].
Qed.

(** X18. The path of a request never contains a question mark: everything
    from the first [?] of the request target on is taken off before the
    path is stored, and later steps only shorten the path. *)
Theorem request_path_has_no_query `{Collaborators} (out : phr_result) (b : string) :
  QUESTION ∉ chars (req_path (build_request out b)).
Proof.
  destruct (build_request_fields out b) as (_ & -> & _).
  intros Hin. apply strip_trailing_slash_chars in Hin. unfold path_before_query in Hin.
  pose proof (find_query_chars (string_of_list_ascii (phr_path out))) as Hq.
  destruct (find_query (string_of_list_ascii (phr_path out))) as [[p q]|].
  - apply upto_nul_chars in Hin. exact (Hq Hin).
  - exact (Hq Hin).
Qed.

(** ** Activity timestamps *)

(** X19. The activity timestamp is a 32-bit reading of the clock, and the
    idle time is their unsigned difference: it is right across a
    wrap-around of [millis()], for any idle time below 2^32 ms. An idle
    time of exactly 2^32 ms is indistinguishable from none. *)
Theorem isActive_across_wraparound (clock idle : Z) (conn : HttpClientConnection) :
  0 ≤ idle < SIZE_MODULUS →
  isActive (clock + idle) (updateActivity clock conn)
    = bool_decide (idle < CLIENT_INACTIVITY_TIMEOUT_MS) ∧
  isActive (clock + SIZE_MODULUS) (updateActivity clock conn) = true.
Proof.
  intros Hidle. pose proof SIZE_MODULUS_eq as HM.
  unfold isActive, updateActivity, size_sub, to_size_t, millis.
  cbn [lastActivityMillis]. rewrite <- !Zminus_mod.
  replace (clock + idle - clock) with idle by lia.
  replace (clock + SIZE_MODULUS - clock) with SIZE_MODULUS by lia.
  rewrite Z.mod_small by exact Hidle. rewrite Z.mod_same by lia. split.
  - destruct (idle <? CLIENT_INACTIVITY_TIMEOUT_MS) eqn:E.
    + apply Z.ltb_lt in E. rewrite bool_decide_eq_true_2 by exact E. reflexivity.
    + apply Z.ltb_ge in E. rewrite bool_decide_eq_false_2 by lia. reflexivity.
  - reflexivity.
Qed.

Lemma isActive_across_wraparound_witness :
  isActive (4294967000 + 1000) (updateActivity 4294967000 (fresh_connection []))
    = bool_decide (1000 < CLIENT_INACTIVITY_TIMEOUT_MS) ∧
  isActive (4294967000 + SIZE_MODULUS) (updateActivity 4294967000 (fresh_connection []))
    = true.
Proof.
  apply (isActive_across_wraparound 4294967000 1000 (fresh_connection [])).
  vm_compute. split; [discriminate | reflexivity].
Defined.


(** ** The connection pool *)

Lemma millis_small (x : Z) : 0 ≤ x < SIZE_MODULUS → millis x = x.
Proof. intros Hx. unfold millis. apply Z.mod_small, Hx. Qed.

Lemma budget_not_exceeded (start x : Z) :
  0 ≤ start ≤ x → x < SIZE_MODULUS → x - start ≤ 256 →
  (256 <? (millis x - millis start) mod U64_MODULUS) = false.
Proof.
  intros Hs Hx Hb. pose proof SIZE_MODULUS_eq as HM.
  rewrite !millis_small by lia. apply Z.ltb_ge.
  rewrite Z.mod_small; [lia|]. unfold U64_MODULUS. lia.
Qed.

Section Pool.
Context `{Collaborators}.

Lemma tick_loop_spec (s : HttpServer) (freeRam start : Z)
    (conns : list HttpClientConnection) (clock : Z)
    (kept : list HttpClientConnection) (clock' : Z) (t : list event) :
  tick_loop s freeRam start clock conns = inr (kept, clock', t) →
  (length kept ≤ length conns)%nat ∧ clock ≤ clock' ∧
  (0 ≤ start ≤ clock → clock' < SIZE_MODULUS → clock' - start ≤ 256 →
   Forall (λ c, connected c = true) kept).
Proof.
  revert clock kept clock' t.
  induction conns as [|conn rest IH]; intros clock kept clock' t Hloop.
  - cbn in Hloop. injection Hloop as <- <- <-. split_and!; [lia | lia | constructor].
  - cbn [tick_loop] in Hloop. destruct (connected conn) eqn:Econn.
    + destruct (isActive clock conn); cbn [negb] in Hloop.
      * destruct (handleConnection s freeRam clock conn) as [r|f] eqn:Ehc; [|discriminate].
        destruct (handleConnection_effects _ _ _ _ _ Ehc) as (_ & _ & Hclock & Halive).
        assert (Hkept : Forall (λ c, connected c = true)
                               (if hc_keep r then [hc_conn r] else [])).
        { destruct (hc_keep r); repeat constructor. congruence. }
        assert (Hlen : (length (if hc_keep r then [hc_conn r] else []) ≤ 1)%nat)
          by (destruct (hc_keep r); cbn; lia).
        destruct (256 <? (millis (hc_clock r) - millis start) mod U64_MODULUS) eqn:Ebudget.
        -- injection Hloop as <- <- <-. rewrite length_app. cbn [length].
           split_and!; [lia | lia |]. intros Hs Hc Hb.
           rewrite budget_not_exceeded in Ebudget by lia. discriminate.
        -- destruct (tick_loop s freeRam start (hc_clock r) rest)
             as [f|[[rest' clock''] t']] eqn:Erest; [discriminate|].
           injection Hloop as <- <- <-.
           destruct (IH _ _ _ _ Erest) as (Hl & Hc & Hall).
           rewrite length_app. cbn [length]. split_and!; [lia | lia |].
           intros Hs Hc' Hb. apply Forall_app. split; [exact Hkept|].
           apply Hall; lia.
      * destruct (IH _ _ _ _ Hloop) as (Hl & Hc & Hall).
        cbn [length]. split_and!; [lia | lia | exact Hall].
    + destruct (256 <? (millis clock - millis start) mod U64_MODULUS) eqn:Ebudget.
      * injection Hloop as <- <- <-. cbn [length]. split_and!; [lia | lia |].
        intros Hs Hc Hb. rewrite budget_not_exceeded in Ebudget by lia. discriminate.
      * destruct (IH _ _ _ _ Hloop) as (Hl & Hc & Hall).
        cbn [length]. split_and!; [lia | lia | exact Hall].
Qed.

(** X20. A tick only ever shrinks the pool, apart from the one connection it
    may accept; the clock does not go back, and routes, middlewares and
    settings are left as registered. *)
Theorem tick_keeps_pool_bounded (s s' : HttpServer) (freeRam clock clock' : Z)
    (incoming : option WiFiClient) (t : list event) :
  tick s freeRam clock incoming = inr (s', clock', t) →
  (length (connections s') ≤ length (connections s) + accepted incoming)%nat ∧
  clock ≤ clock' ∧
  set_connections (connections s) s' = s.
Proof.
  unfold tick. destruct (running s); cbn [negb].
  2: { intros E. injection E as <- <- <-. split_and!; [lia | lia |]. destruct s; reflexivity. }
  destruct (tick_loop s freeRam clock clock _) as [f|[[conns' clock''] t']] eqn:Eloop;
    [discriminate|].
  intros E. injection E as <- <- <-.
  destruct (tick_loop_spec _ _ _ _ _ _ _ _ Eloop) as (Hlen & Hclock & _).
  cbn [set_connections connections]. split_and!.
  - destruct incoming; cbn [accepted]; rewrite ?length_app in Hlen; cbn [length] in Hlen; lia.
  - exact Hclock.
  - destruct s; reflexivity.
Qed.

(** X21. After a tick that stayed within its time budget of 256 ms, no
    disconnected client is left in the pool. *)
Theorem tick_evicts_disconnected (s s' : HttpServer) (freeRam clock clock' : Z)
    (incoming : option WiFiClient) (t : list event) :
  tick s freeRam clock incoming = inr (s', clock', t) →
  running s = true →
  0 ≤ clock → clock' < SIZE_MODULUS → clock' - clock ≤ 256 →
  Forall (λ c, connected c = true) (connections s').
Proof.
  unfold tick. intros Htick Hrun. rewrite Hrun in Htick. cbn [negb] in Htick.
  destruct (tick_loop s freeRam clock clock _) as [f|[[conns' clock''] t']] eqn:Eloop;
    [discriminate|].
  injection Htick as <- <- <-. intros H0 Hc Hb.
  destruct (tick_loop_spec _ _ _ _ _ _ _ _ Eloop) as (_ & _ & Hall).
  cbn [set_connections connections]. apply Hall; lia.
Qed.

End Pool.

Lemma tick_keeps_pool_bounded_witness :
  ∃ (s' : HttpServer) (clock' : Z),
    (length (connections s') ≤ length (connections mixed_pool_server) + 1)%nat ∧
    0 ≤ clock'.
Proof.
  destruct (@tick model mixed_pool_server 100000 0 (Some (socket [get_root])))
    as [f|[[s' clock'] t]] eqn:E; [vm_compute in E; discriminate|].
  exists s', clock'.
  destruct (@tick_keeps_pool_bounded model _ _ _ _ _ _ _ E) as (Hlen & Hclock & _).
  split; [exact Hlen | exact Hclock].
Defined.

Lemma tick_evicts_disconnected_witness :
  ∃ s' : HttpServer,
    pool (@tick model mixed_pool_server 100000 0 None) = Some (connections s') ∧
    length (connections s') = 2%nat ∧
    Forall (λ c, connected c = true) (connections s').
Proof.
  destruct (@tick model mixed_pool_server 100000 0 None) as [f|[[s' clock'] t]] eqn:E;
    [vm_compute in E; discriminate|].
  exists s'. split; [reflexivity|].
  assert (Hrun : (length (connections s'), clock') = (2%nat, 8)).
  { vm_compute in E. injection E as <- <- _. reflexivity. }
  injection Hrun as Hlen ->. split; [exact Hlen|].
  apply (@tick_evicts_disconnected model _ _ _ _ _ _ _ E); [reflexivity | lia | | lia].
  vm_compute. reflexivity.
Defined.


(** ** Sending the body *)

Lemma write_loop_prefix (fuel : nat) (body_bytes : list ascii)
    (start bytes_written clock : Z) (accepts : list Z) :
  Z.of_nat (length body_bytes) < SIZE_MODULUS →
  0 ≤ bytes_written ≤ Z.of_nat (length body_bytes) →
  (Z.to_nat (Z.of_nat (length body_bytes) - bytes_written) ≤ fuel)%nat →
  ∃ (ok : bool) (n : nat) (clock' : Z),
    write_loop fuel (Z.of_nat (length body_bytes)) body_bytes start bytes_written clock
               accepts (take (Z.to_nat bytes_written) body_bytes)
      = Some (ok, take n body_bytes, clock') ∧
    (Z.to_nat bytes_written ≤ n ≤ length body_bytes)%nat ∧
    (ok = true ↔ n = length body_bytes).
Proof.
  intros Hsize. pose proof SIZE_MODULUS_eq as HM.
  revert bytes_written clock accepts.
  induction fuel as [|fuel IH]; intros bw clock accepts Hbw Hfuel.
  - assert (bw = Z.of_nat (length body_bytes)) by lia. subst bw.
    cbn [write_loop]. rewrite Z.ltb_irrefl. cbn [negb].
    exists true, (length body_bytes), clock. rewrite Nat2Z.id.
    split_and!; [reflexivity | lia | lia | done].
  - cbn [write_loop]. destruct (bw <? Z.of_nat (length body_bytes)) eqn:Elt; cbn [negb].
    2: { apply Z.ltb_ge in Elt. assert (bw = Z.of_nat (length body_bytes)) by lia. subst bw.
         exists true, (length body_bytes), clock. rewrite Nat2Z.id.
         split_and!; [reflexivity | lia | lia | done]. }
    apply Z.ltb_lt in Elt.
    assert (Hpartial : ∃ (ok : bool) (n : nat) (clock' : Z),
               Some (false, take (Z.to_nat bw) body_bytes, clock)
                 = Some (ok, take n body_bytes, clock') ∧
               (Z.to_nat bw ≤ n ≤ length body_bytes)%nat ∧
               (ok = true ↔ n = length body_bytes)).
    { exists false, (Z.to_nat bw), clock.
      split_and!; [reflexivity | lia | lia |]. split; [discriminate | lia]. }
    destruct (WRITE_TIMEOUT_MS <? size_sub (millis clock) start); [exact Hpartial|].
    cbv zeta. unfold size_sub.
    rewrite !(to_size_t_small (Z.of_nat (length body_bytes) - bw)) by lia.
    set (chunk := if Z.of_nat (length body_bytes) - bw <? WRITE_CHUNK_SIZE
                  then Z.of_nat (length body_bytes) - bw else WRITE_CHUNK_SIZE).
    assert (Hchunk : 0 < chunk ≤ Z.of_nat (length body_bytes) - bw).
    { subst chunk. unfold WRITE_CHUNK_SIZE.
      destruct (Z.of_nat (length body_bytes) - bw <? 512) eqn:E;
        [apply Z.ltb_lt in E | apply Z.ltb_ge in E]; lia. }
    set (written := Z.max 0 (Z.min chunk (match accepts with [] => 0 | c :: _ => c end))).
    assert (Hwritten : 0 ≤ written ≤ chunk) by (subst written; lia).
    destruct (written =? 0) eqn:Ezero; [exact Hpartial|].
    apply Z.eqb_neq in Ezero. unfold size_add.
    rewrite (to_size_t_small (bw + written)) by lia.
    assert (Hwire : take (Z.to_nat bw) body_bytes
                      ++ take (Z.to_nat written) (drop (Z.to_nat bw) body_bytes)
                    = take (Z.to_nat (bw + written)) body_bytes).
    { rewrite take_take_drop. f_equal. lia. }
    rewrite Hwire.
    destruct (IH (bw + written)
                 (if bw + written <? Z.of_nat (length body_bytes) then clock + 1 else clock)
                 (tail accepts)) as (ok & n & clock' & -> & Hn & Hok); [lia | lia|].
    exists ok, n, clock'. split_and!; [reflexivity | lia | lia | exact Hok].
Qed.

(** X22. Whatever the socket accepts, call by call, the bytes that the body
    loop of [respondToClient] puts on the wire are a prefix of the body, in
    order and without repetition, also after partial writes; the loop
    reports success exactly when that prefix is the whole body. *)
Theorem send_body_transmits_prefix (body_bytes : list ascii) (clock : Z) (accepts : list Z) :
  Z.of_nat (length body_bytes) < SIZE_MODULUS →
  ∃ (ok : bool) (n : nat) (clock' : Z),
    send_body (Z.of_nat (length body_bytes)) body_bytes clock accepts
      = Some (ok, take n body_bytes, clock') ∧
    (n ≤ length body_bytes)%nat ∧
    (ok = true ↔ n = length body_bytes).
Proof.
  intros Hsize. unfold send_body.
  destruct (0 <? Z.of_nat (length body_bytes)) eqn:Epos.
  - destruct (write_loop_prefix (Z.to_nat (Z.of_nat (length body_bytes))) body_bytes
                (millis clock) 0 clock accepts Hsize)
      as (ok & n & clock' & Hrun & Hn & Hok); [lia | lia|].
    exists ok, n, clock'. split_and!; [exact Hrun | lia | exact Hok].
  - apply Z.ltb_ge in Epos. assert (Hnil : body_bytes = []) by (destruct body_bytes; [done | cbn in Epos; lia]).
    subst body_bytes. exists true, 0%nat, clock. split_and!; [reflexivity | cbn; lia | done].
Qed.

Lemma send_body_transmits_prefix_witness :
  ∃ (ok : bool) (n : nat) (clock' : Z),
    send_body 3041 big_post 0 [512; 100; 0; 512]
      = Some (ok, take n big_post, clock') ∧
    (n ≤ 3041)%nat ∧
    (ok = true ↔ n = 3041%nat).
Proof.
  apply (send_body_transmits_prefix big_post 0 [512; 100; 0; 512]).
  vm_compute. reflexivity.
Defined.


(** ** The size limit *)

(** X23. A first read that is longer than the limit is answered with exactly
    one 413 response before anything is parsed, and [handleConnection]
    returns [false]. Since a read is at most [DEFAULT_BUFFER_SIZE] bytes
    long this takes a limit below that size, which [setMaxRequestSize]
    refuses but [begin(config)] stores as given. *)
Theorem oversized_first_read_gets_413 `{Collaborators} (s : HttpServer) (freeRam clock : Z)
    (conn : HttpClientConnection) (seg : list ascii) (rest : list (list ascii)) :
  hasEnoughMemory freeRam = true →
  cl_inbox (client conn) = seg :: rest →
  Z.of_nat (length seg) ≤ DEFAULT_BUFFER_SIZE →
  0 < maxRequestSize s < Z.of_nat (length seg) →
  ∃ r : hc_result,
    handleConnection s freeRam clock conn = Returned r ∧
    hc_keep r = false ∧ hc_trace r = [] ∧
    sent r = cl_outbox (client conn) ++ [generateErrorResponse s 413 "Payload Too Large"].
Proof.
  intros Hmem Hin Hfit Hmax.
  unfold handleConnection. rewrite Hmem. cbn [negb].
  assert (Hav : available (client conn) = Z.of_nat (length seg))
    by (unfold available; rewrite Hin; reflexivity).
  rewrite Hav. replace (Z.of_nat (length seg) =? 0) with false
    by (symmetry; apply Z.eqb_neq; lia).
  rewrite (receive_too_large s (client conn) seg rest Hin Hfit Hmax).
  eexists. split_and!; reflexivity.
Qed.

Lemma oversized_first_read_gets_413_witness :
  maxRequestSize tiny_server = 100 ∧
  ∃ r : hc_result,
    @handleConnection model tiny_server 100000 0 (fresh_connection [take 1460 big_post])
      = Returned r ∧
    hc_keep r = false ∧ hc_trace r = [] ∧
    sent r = [] ++ [generateErrorResponse tiny_server 413 "Payload Too Large"].
Proof.
  split; [reflexivity|].
  apply (@oversized_first_read_gets_413 model tiny_server 100000 0
           (fresh_connection [take 1460 big_post]) (take 1460 big_post) []).
  - reflexivity.
  - reflexivity.
  - vm_compute. discriminate.
  - vm_compute. split; reflexivity.
Defined.
